(** * MIoT media ring buffer and decoder worker (miot_kit/miot/decoder.py)

    A shallow embedding of [MIoTMediaRingBuffer] and of the frame handlers of
    [MIoTMediaDecoder], with the properties of the bounded two-lane buffer,
    of the video rate gate and of the worker loop.

    Conventions.  A Python method that mutates [self] and may raise becomes a
    function from the object's state to the new state paired with an
    [outcome]: the state component is what the object looks like when the
    call ends, whether it returned or raised.  Every method body of the ring
    buffer runs under [with self._cond], so a call is one atomic transition.
    Calls into PyAV, PIL, the clock and the asyncio loop are answered by a
    [world] record that is given to each handler call. *)

From Stdlib Require Import Ascii String.
From Stdlib Require Import List ZArith Bool Arith Lia.
Import ListNotations.

Set Implicit Arguments.

(** ** Exceptions and outcomes *)

Inductive exn : Type :=
| AttributeError   (* attribute missing, or attribute access on None *)
| IndexError       (* pop from an empty deque, index out of range *)
| RuntimeError     (* event loop is closed *)
| AVError.         (* raised inside PyAV / PIL *)

Inductive outcome (A : Type) : Type :=
| Returned (a : A)
| Raised (e : exn).

Arguments Returned {A} a.
Arguments Raised {A} e.

(** ** Frame records (miot/types.py is not part of the sources at hand) *)

(** Modelled from the spec: the enumeration [MIoTCameraFrameType] of types.py.
    The decoder only tests a frame type against [FRAME_I] (a keyframe); every
    other member behaves as [FRAME_P] does. *)
Inductive MIoTCameraFrameType : Type := FRAME_P | FRAME_I.

(** Modelled from the spec: the enumeration [MIoTCameraCodec] of types.py.
    The decoder tests for H264, H265 and OPUS; [CODEC_OTHER] stands for all
    remaining members. *)
Inductive MIoTCameraCodec : Type :=
| VIDEO_H264
| VIDEO_H265
| AUDIO_OPUS
| CODEC_OTHER (id : nat).

(** Modelled from the spec: the fields of [MIoTCameraFrameData] that the
    decoder reads.  The class defines neither [__bool__] nor [__len__], so an
    instance is truthy. *)
Record MIoTCameraFrameData : Type := mkFrame {
  codec_id : MIoTCameraCodec;
  frame_type : MIoTCameraFrameType;
  data : list Byte.byte;
  timestamp : Z;
  channel : Z
}.

Definition frame_type_eqb (a b : MIoTCameraFrameType) : bool :=
  match a, b with
  | FRAME_I, FRAME_I | FRAME_P, FRAME_P => true
  | _, _ => false
  end.

Definition codec_eqb (a b : MIoTCameraCodec) : bool :=
  match a, b with
  | VIDEO_H264, VIDEO_H264 | VIDEO_H265, VIDEO_H265 | AUDIO_OPUS, AUDIO_OPUS => true
  | CODEC_OTHER m, CODEC_OTHER n => Nat.eqb m n
  | _, _ => false
  end.

(** [x.frame_type == FRAME_I] *)
Definition is_I (f : MIoTCameraFrameData) : bool :=
  frame_type_eqb (frame_type f) FRAME_I.

(** ** collections.deque with a maxlen *)

Section Deque.
Variable A : Type.

(** [d.append(x)]: the element goes to the right end; if that makes the
    deque longer than [maxlen], one element is dropped from the left. *)
Definition deque_append (maxlen : nat) (d : list A) (x : A) : list A :=
  let d' := d ++ [x] in
  if maxlen <? length d' then tl d' else d'.

(** [d.popleft()]: [None] stands for IndexError on an empty deque. *)
Definition deque_popleft (d : list A) : option (A * list A) :=
  match d with
  | [] => None
  | x :: rest => Some (x, rest)
  end.

(** [del d[i]] for an index in range. *)
Fixpoint deque_del (i : nat) (d : list A) : list A :=
  match d, i with
  | [], _ => []
  | _ :: rest, O => rest
  | x :: rest, S j => x :: deque_del j rest
  end.
End Deque.

(** ** MIoTMediaRingBuffer *)

(** What a call does besides changing the lanes. *)
Inductive rb_event : Type :=
| Notify                                        (* self._cond.notify() *)
| LogDrop (c : MIoTCameraCodec) (ts : Z)        (* _LOGGER.info("drop non-I frame", ...) *)
| Wait (timeout_ms : Z).                        (* self._cond.wait(timeout=...) *)

(** [cond] tells whether the attribute [_cond] still exists: [stop] deletes
    it.  [events] is the trace of notifications, log lines and waits, newest
    last. *)
Record MIoTMediaRingBuffer : Type := mkRB {
  maxlen : nat;
  video_buffer : list MIoTCameraFrameData;
  audio_buffer : list MIoTCameraFrameData;
  cond : bool;
  events : list rb_event
}.

Definition set_video (b : MIoTMediaRingBuffer) (v : list MIoTCameraFrameData) :=
  mkRB (maxlen b) v (audio_buffer b) (cond b) (events b).

Definition set_audio (b : MIoTMediaRingBuffer) (a : list MIoTCameraFrameData) :=
  mkRB (maxlen b) (video_buffer b) a (cond b) (events b).

Definition emit (b : MIoTMediaRingBuffer) (e : rb_event) :=
  mkRB (maxlen b) (video_buffer b) (audio_buffer b) (cond b) (events b ++ [e]).

(** [MIoTMediaRingBuffer(maxlen)]; a negative maxlen is refused by [deque]. *)
Definition init (n : nat) : MIoTMediaRingBuffer := mkRB n [] [] true [].

Definition default_maxlen : nat := 20.

(** The eviction loop of [put_video]:
    [for i in range(len(buf)): if buf[i].frame_type != FRAME_I: del buf[i]; removed = True; break].
    The result is the lane after the loop and the flag [removed]. *)
Fixpoint evict_loop (buf : list MIoTCameraFrameData) (idxs : list nat)
  : outcome (list MIoTCameraFrameData * bool) :=
  match idxs with
  | [] => Returned (buf, false)
  | i :: rest =>
      match nth_error buf i with
      | None => Raised IndexError
      | Some f =>
          if negb (is_I f) then Returned (deque_del i buf, true)
          else evict_loop buf rest
      end
  end.

Definition put_video (b : MIoTMediaRingBuffer) (item : MIoTCameraFrameData)
  : MIoTMediaRingBuffer * outcome unit :=
  if negb (cond b) then (b, Raised AttributeError) else
  if maxlen b <=? length (video_buffer b) then
    if is_I item then
      match evict_loop (video_buffer b) (seq 0 (length (video_buffer b))) with
      | Raised e => (b, Raised e)
      | Returned (buf, removed) =>
          let after_room :=
            if removed then Some buf
            else option_map snd (deque_popleft buf) in
          match after_room with
          | None => (set_video b buf, Raised IndexError)
          | Some buf' =>
              let b1 := set_video b (deque_append (maxlen b) buf' item) in
              let b2 := emit b1 Notify in
              (emit b2 (LogDrop (codec_id item) (timestamp item)), Returned tt)
          end
      end
    else
      (emit b (LogDrop (codec_id item) (timestamp item)), Returned tt)
  else
    let b1 := set_video b (deque_append (maxlen b) (video_buffer b) item) in
    (emit b1 Notify, Returned tt).

Definition put_audio (b : MIoTMediaRingBuffer) (item : MIoTCameraFrameData)
  : MIoTMediaRingBuffer * outcome unit :=
  if negb (cond b) then (b, Raised AttributeError) else
  let b1 := set_audio b (deque_append (maxlen b) (audio_buffer b) item) in
  (emit b1 Notify, Returned tt).

(** [stop]: [del self._cond] raises when the attribute is already gone. *)
Definition stop (b : MIoTMediaRingBuffer) : MIoTMediaRingBuffer * outcome unit :=
  if negb (cond b) then (b, Raised AttributeError)
  else (mkRB (maxlen b) [] [] false (events b), Returned tt).

(** The locked part of [step]: which record, if any, is taken. *)
Inductive taken : Type :=
| TakeVideo (f : MIoTCameraFrameData)
| TakeAudio (f : MIoTCameraFrameData)
| TakeNothing.

Definition default_timeout_ms : Z := 200.   (* timeout: float = 0.2 seconds *)

Definition step_get (b : MIoTMediaRingBuffer) (timeout_ms : Z)
  : MIoTMediaRingBuffer * outcome taken :=
  if negb (cond b) then (b, Raised AttributeError) else
  match video_buffer b with
  | f :: rest => (set_video b rest, Returned (TakeVideo f))
  | [] =>
      match audio_buffer b with
      | f :: rest => (set_audio b rest, Returned (TakeAudio f))
      | [] => (emit b (Wait timeout_ms), Returned TakeNothing)
      end
  end.

(** [step(on_video_frame, on_audio_frame, timeout)]; the handlers act on a
    state [S] of their own (the decoder).  [if frame_data:] holds for every
    record taken, see [MIoTCameraFrameData]. *)
Section Step.
Variable S : Type.
Variables on_video_frame on_audio_frame : MIoTCameraFrameData -> S -> S * outcome unit.

Definition step (timeout_ms : Z) (b : MIoTMediaRingBuffer) (s : S)
  : MIoTMediaRingBuffer * S * outcome unit :=
  match step_get b timeout_ms with
  | (b', Raised e) => (b', s, Raised e)
  | (b', Returned (TakeVideo f)) =>
      let (s', o) := on_video_frame f s in (b', s', o)
  | (b', Returned (TakeAudio f)) =>
      let (s', o) := on_audio_frame f s in (b', s', o)
  | (b', Returned TakeNothing) => (b', s, Returned tt)
  end.
End Step.

(** Producer calls, as data. *)
Inductive put_call : Type :=
| PutVideo (item : MIoTCameraFrameData)
| PutAudio (item : MIoTCameraFrameData).

Definition do_put (b : MIoTMediaRingBuffer) (c : put_call) : MIoTMediaRingBuffer * outcome unit :=
  match c with
  | PutVideo item => put_video b item
  | PutAudio item => put_audio b item
  end.

(** The buffer states seen after each call of a sequence of producer calls;
    a call that raises is seen by its caller only, the buffer lives on. *)
Fixpoint states_after (b : MIoTMediaRingBuffer) (calls : list put_call)
  : list MIoTMediaRingBuffer :=
  match calls with
  | [] => []
  | c :: rest => let b' := fst (do_put b c) in b' :: states_after b' rest
  end.

Definition put_all (b : MIoTMediaRingBuffer) (calls : list put_call) : MIoTMediaRingBuffer :=
  fold_left (fun st c => fst (do_put st c)) calls b.

(** ** MIoTMediaDecoder *)

Definition bytes : Type := list Byte.byte.

(** Decoded frames are handles owned by PyAV. *)
Definition VideoFrame : Type := nat.
Definition AudioFrame : Type := nat.

(** The codec names passed to [CodecContext.create]. *)
Inductive av_codec : Type := h264 | hevc | opus.

(** Answers of PyAV, PIL, the clock and the asyncio loop during one handler
    call.  [None] and [false] stand for the call raising. *)
Record world : Type := mkWorld {
  w_hw_create : bool;                              (* create() in the try of _init_hw_decoder *)
  w_create : bool;                                 (* every other CodecContext.create *)
  w_video_decode : option (list VideoFrame);       (* self._video_decoder.decode(pkt) *)
  w_now : Z;                                       (* int(time.time()*1000) *)
  w_jpeg : VideoFrame -> option bytes;             (* reformat, to_image, save as JPEG *)
  w_audio_decode : option (list AudioFrame);       (* self._audio_decoder.decode(pkt) *)
  w_resample : AudioFrame -> option (list bytes);  (* resample(frame), each to bytes *)
  w_call_soon : bool;                              (* call_soon_threadsafe accepts the task *)
  w_is_closed : bool                               (* self._main_loop.is_closed() *)
}.

(** A coroutine handed to the main loop: callback arguments (data, ts, channel). *)
Inductive task : Type :=
| VideoTask (jpeg_data : bytes) (ts : Z) (ch : Z)
| AudioTask (pcm_bytes : bytes) (ts : Z) (ch : Z).

Inductive log_line : Type :=
| InfoHwDecoder (c : av_codec)
| WarnHwFallback (c : av_codec)
| InfoSoftwareDecoder (c : av_codec)
| InfoVideoDecoderCreated (c : MIoTCameraCodec)
| InfoVideoFrameEmpty (c : MIoTCameraCodec) (ts : Z)
| ErrorProcessVideoFrame (e : exn)
| InfoAudioDecoderCreated (c : MIoTCameraCodec)
| ErrorFrameDataHandle (e : exn)
| InfoDecoderStopped.

(** [audio_callback] tells whether the attribute [_audio_callback] was set
    by the constructor; [scheduled] lists the tasks accepted by the main
    loop, oldest first. *)
Record MIoTMediaDecoder : Type := mkDecoder {
  running : bool;
  frame_interval : Z;
  enable_hw_accel : bool;
  hw_accel_available : bool;
  audio_callback : bool;
  queue : MIoTMediaRingBuffer;
  video_decoder : option av_codec;
  audio_decoder : option av_codec;
  resampler : bool;
  last_jpeg_ts : Z;
  scheduled : list task;
  log : list log_line
}.

Definition set_running (v : bool) (d : MIoTMediaDecoder) :=
  mkDecoder v (frame_interval d) (enable_hw_accel d) (hw_accel_available d)
    (audio_callback d) (queue d) (video_decoder d) (audio_decoder d) (resampler d)
    (last_jpeg_ts d) (scheduled d) (log d).

Definition set_queue (v : MIoTMediaRingBuffer) (d : MIoTMediaDecoder) :=
  mkDecoder (running d) (frame_interval d) (enable_hw_accel d) (hw_accel_available d)
    (audio_callback d) v (video_decoder d) (audio_decoder d) (resampler d)
    (last_jpeg_ts d) (scheduled d) (log d).

Definition set_video_decoder (v : option av_codec) (d : MIoTMediaDecoder) :=
  mkDecoder (running d) (frame_interval d) (enable_hw_accel d) (hw_accel_available d)
    (audio_callback d) (queue d) v (audio_decoder d) (resampler d)
    (last_jpeg_ts d) (scheduled d) (log d).

Definition set_audio_decoder (v : option av_codec) (d : MIoTMediaDecoder) :=
  mkDecoder (running d) (frame_interval d) (enable_hw_accel d) (hw_accel_available d)
    (audio_callback d) (queue d) (video_decoder d) v (resampler d)
    (last_jpeg_ts d) (scheduled d) (log d).

Definition set_resampler (v : bool) (d : MIoTMediaDecoder) :=
  mkDecoder (running d) (frame_interval d) (enable_hw_accel d) (hw_accel_available d)
    (audio_callback d) (queue d) (video_decoder d) (audio_decoder d) v
    (last_jpeg_ts d) (scheduled d) (log d).

Definition set_last_jpeg_ts (v : Z) (d : MIoTMediaDecoder) :=
  mkDecoder (running d) (frame_interval d) (enable_hw_accel d) (hw_accel_available d)
    (audio_callback d) (queue d) (video_decoder d) (audio_decoder d) (resampler d)
    v (scheduled d) (log d).

Definition add_task (t : task) (d : MIoTMediaDecoder) :=
  mkDecoder (running d) (frame_interval d) (enable_hw_accel d) (hw_accel_available d)
    (audio_callback d) (queue d) (video_decoder d) (audio_decoder d) (resampler d)
    (last_jpeg_ts d) (scheduled d ++ [t]) (log d).

Definition add_log (l : log_line) (d : MIoTMediaDecoder) :=
  mkDecoder (running d) (frame_interval d) (enable_hw_accel d) (hw_accel_available d)
    (audio_callback d) (queue d) (video_decoder d) (audio_decoder d) (resampler d)
    (last_jpeg_ts d) (scheduled d) (log d ++ [l]).

(** *** Handler code as state transformers that may raise *)

Definition M (A : Type) : Type := MIoTMediaDecoder -> MIoTMediaDecoder * outcome A.

Definition ret {A} (a : A) : M A := fun d => (d, Returned a).

Definition raise {A} (e : exn) : M A := fun d => (d, Raised e).

Definition bind {A B} (m : M A) (k : A -> M B) : M B :=
  fun d => match m d with
           | (d', Returned a) => k a d'
           | (d', Raised e) => (d', Raised e)
           end.

Definition get : M MIoTMediaDecoder := fun d => (d, Returned d).

Definition modify (f : MIoTMediaDecoder -> MIoTMediaDecoder) : M unit :=
  fun d => (f d, Returned tt).

(** [try: body except Exception as e: handler e] *)
Definition try_except (body : M unit) (handler : exn -> M unit) : M unit :=
  fun d => match body d with
           | (d', Raised e) => handler e d'
           | r => r
           end.

Declare Scope py_scope.
Delimit Scope py_scope with py.
Notation "x <- m ;; k" := (bind m (fun x => k))
  (at level 61, m at next level, right associativity) : py_scope.
Notation "m ;; k" := (bind m (fun _ => k))
  (at level 61, right associativity) : py_scope.
Local Open Scope py_scope.

(** [VideoCodecContext.create(name, "r")] outside [_init_hw_decoder]. *)
Definition create_codec (w : world) (name : av_codec) : M av_codec :=
  if w_create w then ret name else raise AVError.

Definition _init_hw_decoder (w : world) (name : av_codec) : M av_codec :=
  if w_hw_create w then modify (add_log (InfoHwDecoder name)) ;; ret name
  else modify (add_log (WarnHwFallback name)) ;; create_codec w name.

(** One branch of the codec test in [_on_video_callback]. *)
Definition make_video_decoder (w : world) (name : av_codec) : M unit :=
  d <- get ;;
  if enable_hw_accel d && hw_accel_available d then
    dec <- _init_hw_decoder w name ;;
    modify (set_video_decoder (Some dec))
  else
    dec <- create_codec w name ;;
    modify (set_video_decoder (Some dec)) ;;
    modify (add_log (InfoSoftwareDecoder name)).

(** Lines 280-295: [if not self._video_decoder: ...]. *)
Definition bind_video_decoder (w : world) (frame_data : MIoTCameraFrameData) : M unit :=
  d <- get ;;
  match video_decoder d with
  | Some _ => ret tt
  | None =>
      (match codec_id frame_data with
       | VIDEO_H264 => make_video_decoder w h264
       | VIDEO_H265 => make_video_decoder w hevc
       | _ => ret tt
       end) ;;
      modify (add_log (InfoVideoDecoderCreated (codec_id frame_data)))
  end.

(** Lines 297-298: [self._video_decoder.decode(pkt)]. *)
Definition decode_video (w : world) : M (list VideoFrame) :=
  d <- get ;;
  match video_decoder d with
  | None => raise AttributeError
  | Some _ =>
      match w_video_decode w with
      | Some frames => ret frames
      | None => raise AVError
      end
  end.

(** [self._main_loop.call_soon_threadsafe(self._main_loop.create_task, coro)] *)
Definition call_soon_threadsafe (w : world) (t : task) : M unit :=
  if w_call_soon w then modify (add_task t) else raise RuntimeError.

(** Lines 300-326: the rate gate and the forwarding of the first frame. *)
Definition rate_gate (w : world) (frame_data : MIoTCameraFrameData)
    (frames : list VideoFrame) : M unit :=
  let now_ts := w_now w in
  d <- get ;;
  if (frame_interval d <=? now_ts - last_jpeg_ts d)%Z then
    match frames with
    | [] =>
        modify (add_log (InfoVideoFrameEmpty (codec_id frame_data) (timestamp frame_data))) ;;
        modify (set_last_jpeg_ts now_ts)
    | frame :: _ =>
        try_except
          (jpeg_data <- (match w_jpeg w frame with
                         | Some b => ret b
                         | None => raise AVError
                         end) ;;
           call_soon_threadsafe w
             (VideoTask jpeg_data (timestamp frame_data) (channel frame_data)) ;;
           modify (set_last_jpeg_ts now_ts))
          (fun e => modify (add_log (ErrorProcessVideoFrame e)))
    end
  else ret tt.

(** Lines 280-298: everything up to and including the decode. *)
Definition decode_video_packet (w : world) (frame_data : MIoTCameraFrameData)
  : M (list VideoFrame) :=
  bind_video_decoder w frame_data ;;
  decode_video w.

Definition _on_video_callback (w : world) (frame_data : MIoTCameraFrameData) : M unit :=
  frames <- decode_video_packet w frame_data ;;
  rate_gate w frame_data frames.

(** Lines 329-334: [if not self._audio_decoder: ...]. *)
Definition bind_audio_decoder (w : world) (frame_data : MIoTCameraFrameData) : M unit :=
  d <- get ;;
  match audio_decoder d with
  | Some _ => ret tt
  | None =>
      (match codec_id frame_data with
       | AUDIO_OPUS =>
           dec <- create_codec w opus ;;
           modify (set_audio_decoder (Some dec))
       | _ => ret tt
       end) ;;
      modify (set_resampler true) ;;
      modify (add_log (InfoAudioDecoderCreated (codec_id frame_data)))
  end.

Definition decode_audio (w : world) : M (list AudioFrame) :=
  d <- get ;;
  match audio_decoder d with
  | None => raise AttributeError
  | Some _ =>
      match w_audio_decode w with
      | Some frames => ret frames
      | None => raise AVError
      end
  end.

(** The two nested loops that build [pcm_bytes]. *)
Fixpoint resample_frames (have_resampler : bool) (w : world)
    (frames : list AudioFrame) (pcm_bytes : bytes) : outcome bytes :=
  match frames with
  | [] => Returned pcm_bytes
  | frame :: rest =>
      if negb have_resampler then Raised AttributeError else
      match w_resample w frame with
      | None => Raised AVError
      | Some rs_frames =>
          resample_frames have_resampler w rest
            (fold_left (fun acc rs => acc ++ rs) rs_frames pcm_bytes)
      end
  end.

(** Lines 329-336: everything up to and including the decode. *)
Definition decode_audio_packet (w : world) (frame_data : MIoTCameraFrameData)
  : M (list AudioFrame) :=
  bind_audio_decoder w frame_data ;;
  decode_audio w.

Definition _on_audio_callback (w : world) (frame_data : MIoTCameraFrameData) : M unit :=
  frames <- decode_audio_packet w frame_data ;;
  d <- get ;;
  match resample_frames (resampler d) w frames [] with
  | Raised e => raise e
  | Returned pcm_bytes =>
      if negb (audio_callback d) then raise AttributeError else
      call_soon_threadsafe w
        (AudioTask pcm_bytes (timestamp frame_data) (channel frame_data))
  end.

(** *** The worker loop *)

(** One pass of the body of [while self._running] in [run]; the boolean is
    false when the pass ends in [break]. *)
Definition run_iteration (w : world) (d : MIoTMediaDecoder) : MIoTMediaDecoder * bool :=
  match step (_on_video_callback w) (_on_audio_callback w) default_timeout_ms (queue d) d with
  | (q', d', Returned _) => (set_queue q' d', true)
  | (q', d', Raised e) =>
      (add_log (ErrorFrameDataHandle e) (set_queue q' d'), negb (w_is_closed w))
  end.

(** [run], for as many passes as there are worlds. *)
Fixpoint run_loop (ws : list world) (d : MIoTMediaDecoder) : MIoTMediaDecoder :=
  match ws with
  | [] => d
  | w :: rest =>
      if running d then
        let (d', continue) := run_iteration w d in
        if continue then run_loop rest d' else add_log InfoDecoderStopped d'
      else add_log InfoDecoderStopped d
  end.

Definition run (ws : list world) (d : MIoTMediaDecoder) : MIoTMediaDecoder :=
  run_loop ws (set_running true d).

(** [MIoTMediaDecoder(frame_interval, video_callback, audio_callback, ...)]
    with audio enabled and a callback given. *)
Definition new_decoder (interval : Z) (hw : bool) (hw_available : bool) : MIoTMediaDecoder :=
  mkDecoder false interval hw (hw && hw_available) true (init default_maxlen)
    None None false 0 [] [].

(** Records handled one after the other by the worker, with the world each
    call meets. *)
Inductive handled : Type :=
| HVideo (w : world) (frame_data : MIoTCameraFrameData)
| HAudio (w : world) (frame_data : MIoTCameraFrameData).

Definition handle (h : handled) (d : MIoTMediaDecoder) : MIoTMediaDecoder :=
  match h with
  | HVideo w fd => fst (_on_video_callback w fd d)
  | HAudio w fd => fst (_on_audio_callback w fd d)
  end.

(** Clock reading offered to a handler call. *)
Definition clock_of (h : handled) : Z :=
  match h with HVideo w _ | HAudio w _ => w_now w end.

Definition is_video_task (t : task) : bool :=
  match t with VideoTask _ _ _ => true | AudioTask _ _ _ => false end.

Definition video_tasks (d : MIoTMediaDecoder) : nat :=
  length (filter is_video_task (scheduled d)).

(** The clock readings of the calls that forwarded a video payload. *)
Fixpoint emission_times (d : MIoTMediaDecoder) (hs : list handled) : list Z :=
  match hs with
  | [] => []
  | h :: rest =>
      let d' := handle h d in
      (if video_tasks d <? video_tasks d' then [clock_of h] else [])
        ++ emission_times d' rest
  end.

Fixpoint nondecreasing (ts : list Z) : bool :=
  match ts with
  | [] => true
  | t :: rest =>
      forallb (fun u => t <=? u)%Z rest && nondecreasing rest
  end.

(** Any two entries, the earlier one first, lie at least [interval] apart. *)
Definition spaced (interval : Z) (ts : list Z) : Prop :=
  forall i j t1 t2, i < j ->
    nth_error ts i = Some t1 -> nth_error ts j = Some t2 ->
    (interval <= t2 - t1)%Z.

(** ** Predicates and sample inputs used in the statements *)

(** A record is a keyframe when its frame type is [FRAME_I]. *)
Definition keyframe (f : MIoTCameraFrameData) : Prop := frame_type f = FRAME_I.

Definition p_frame (ts : Z) : MIoTCameraFrameData := mkFrame VIDEO_H265 FRAME_P [] ts 0.
Definition i_frame (ts : Z) : MIoTCameraFrameData := mkFrame VIDEO_H265 FRAME_I [] ts 0.
Definition opus_frame (ts : Z) : MIoTCameraFrameData := mkFrame AUDIO_OPUS FRAME_P [] ts 0.

(** A live buffer of capacity 3 whose video lane is full: I, P, I. *)
Definition full_mixed : MIoTMediaRingBuffer :=
  mkRB 3 [i_frame 1; p_frame 2; i_frame 3] [] true [].

(** A live buffer of capacity 3 whose video lane holds keyframes only. *)
Definition full_of_keyframes : MIoTMediaRingBuffer :=
  mkRB 3 [i_frame 1; i_frame 2; i_frame 3] [] true [].

(** Scenario A: 25 records that are not keyframes, stamped 0..24. *)
Definition scenario_A : list MIoTCameraFrameData :=
  map (fun n => p_frame (Z.of_nat n)) (seq 0 25).

Definition within_capacity (n : nat) (b : MIoTMediaRingBuffer) : Prop :=
  length (video_buffer b) <= n /\ length (audio_buffer b) <= n.

(** Handlers that only write down what they were given. *)
Definition note_video (f : MIoTCameraFrameData) (s : list taken) : list taken * outcome unit :=
  (s ++ [TakeVideo f], Returned tt).
Definition note_audio (f : MIoTCameraFrameData) (s : list taken) : list taken * outcome unit :=
  (s ++ [TakeAudio f], Returned tt).

(** A live buffer with one audio record queued before two video records. *)
Definition both_lanes : MIoTMediaRingBuffer :=
  mkRB 20 [p_frame 7; p_frame 8] [opus_frame 5] true [].

(** Everything succeeds: one decoded frame, a one-byte JPEG, two PCM chunks. *)
Definition good_world (now : Z) : world :=
  mkWorld true true (Some [1]) now (fun _ => Some [Byte.xff])
    (Some [1]) (fun _ => Some [[Byte.x01]; [Byte.x02]]) true false.

(** The decode gives a frame, but turning it into a JPEG raises. *)
Definition bad_jpeg_world (now : Z) : world :=
  mkWorld true true (Some [1]) now (fun _ => None)
    (Some [1]) (fun _ => Some [[Byte.x01]; [Byte.x02]]) true false.

(** The decodes give no frame. *)
Definition no_frame_world (now : Z) : world :=
  mkWorld true true (Some []) now (fun _ => Some [Byte.xff])
    (Some []) (fun _ => Some []) true false.

(** A running decoder with both codecs bound. *)
Definition bound_decoder (interval last : Z) : MIoTMediaDecoder :=
  mkDecoder true interval false false true (init default_maxlen)
    (Some hevc) (Some opus) true last [] [].

(** Scenario C: ten decodable video records, 10 ms apart, interval 1000 ms. *)
Definition scenario_C : list handled :=
  map (fun k => HVideo (good_world (5000 + 10 * Z.of_nat k)) (i_frame (Z.of_nat k)))
      (seq 0 10).

(** What [resample(frame)] returned, as byte strings. *)
Definition resampled (w : world) (frame : AudioFrame) : list bytes :=
  match w_resample w frame with
  | Some rs_frames => rs_frames
  | None => []
  end.

(** A running decoder whose video lane holds a record of an unsupported codec followed by an H.264
    keyframe. *)
Definition g711_then_h264 : MIoTMediaDecoder :=
  mkDecoder true 1000 false false true
    (mkRB 20 [mkFrame (CODEC_OTHER 1027) FRAME_I [] 1 0;
              mkFrame VIDEO_H264 FRAME_I [] 2 0] [] true [])
    None None false 0 [] [].

(** ** Further definitions: draining, producer entry points, shutdown *)

(** A decoder as the constructor leaves it with audio disabled: the
    attribute [_audio_callback] is never set. *)
Definition decoder_without_audio : MIoTMediaDecoder :=
  mkDecoder false 1000 false false false (init default_maxlen)
    None None false 0 [] [].

(** The last [n] elements of a list. *)
Definition last_n {A : Type} (n : nat) (l : list A) : list A :=
  skipn (length l - n) l.

(** Number of keyframes held in the video lane. *)
Definition keyframes_held (b : MIoTMediaRingBuffer) : nat :=
  length (filter is_I (video_buffer b)).

(** The video records and the audio records of a sequence of producer
    calls, each in call order. *)
Definition videos_of (calls : list put_call) : list MIoTCameraFrameData :=
  flat_map (fun c => match c with PutVideo f => [f] | PutAudio _ => [] end) calls.

Definition audios_of (calls : list put_call) : list MIoTCameraFrameData :=
  flat_map (fun c => match c with PutAudio f => [f] | PutVideo _ => [] end) calls.

(** [n] calls of [step] in a row with the note-taking handlers. *)
Fixpoint drain (n : nat) (b : MIoTMediaRingBuffer) (s : list taken)
  : MIoTMediaRingBuffer * list taken :=
  match n with
  | O => (b, s)
  | S k =>
      match step note_video note_audio default_timeout_ms b s with
      | (b', s', _) => drain k b' s'
      end
  end.

(** [MIoTMediaDecoder.push_video_frame] and [push_audio_frame]. *)
Definition push_video_frame (frame_data : MIoTCameraFrameData) : M unit :=
  fun d => let (q, o) := put_video (queue d) frame_data in (set_queue q d, o).

Definition push_audio_frame (frame_data : MIoTCameraFrameData) : M unit :=
  fun d => let (q, o) := put_audio (queue d) frame_data in (set_queue q d, o).

(** [MIoTMediaDecoder.stop].  [join_returns] is the answer of
    [Thread.join], which the decoder does not decide: [join] raises
    RuntimeError on a thread that was never started, and returns once [run]
    has ended.  A [join] that never comes back gives [stop] no outcome at
    all; such a call is not described here. *)
Definition decoder_stop (join_returns : bool) : M unit :=
  modify (set_running false) ;;
  (fun d => let (q, o) := stop (queue d) in (set_queue q d, o)) ;;
  modify (set_video_decoder None) ;;
  modify (set_audio_decoder None) ;;
  if join_returns then ret tt else raise RuntimeError.

(** A world that differs from [w] in what the video decode returns. *)
Definition with_video_decode (w : world) (r : option (list VideoFrame)) : world :=
  mkWorld (w_hw_create w) (w_create w) r (w_now w) (w_jpeg w)
    (w_audio_decode w) (w_resample w) (w_call_soon w) (w_is_closed w).

(** The codec name the video handler passes to [create] for a record. *)
Definition video_codec_name (c : MIoTCameraCodec) : option av_codec :=
  match c with
  | VIDEO_H264 => Some h264
  | VIDEO_H265 => Some hevc
  | _ => None
  end.

(** Whether [create] succeeds on the path the handler takes: the hardware
    path (taken when acceleration is enabled and was detected) tries twice. *)
Definition create_succeeds (w : world) (d : MIoTMediaDecoder) : bool :=
  if enable_hw_accel d && hw_accel_available d
  then w_hw_create w || w_create w
  else w_create w.

(** ** Construction and hardware probing *)

(** What running [ffmpeg -hwaccels] came to: the command is missing
    (FileNotFoundError), [subprocess.run] raised something else, or the
    process ended with a return code; [lists_vaapi] is the test
    ["vaapi" in result.stdout.lower()]. *)
Inductive ffmpeg_run : Type :=
| FfmpegNotFound
| FfmpegRaised
| FfmpegExited (returncode : Z) (lists_vaapi : bool).

Record hw_probe : Type := mkProbe {
  p_ffmpeg : ffmpeg_run;
  p_renderD128 : bool;      (* os.path.exists("/dev/dri/renderD128") *)
  p_card0 : bool            (* os.path.exists("/dev/dri/card0") *)
}.

Inductive hw_accel : Type := vaapi.

(** [_detect_hw_acceleration]: the returned flag and the value left in
    [_hw_accel_type]. *)
Definition _detect_hw_acceleration (p : hw_probe) : bool * option hw_accel :=
  let devices :=
    if p_renderD128 p || p_card0 p then (true, Some vaapi) else (false, None) in
  match p_ffmpeg p with
  | FfmpegRaised => (false, None)
  | FfmpegNotFound => devices
  | FfmpegExited returncode lists_vaapi =>
      if (returncode =? 0)%Z then
        if lists_vaapi then (true, Some vaapi) else devices
      else devices
  end.

(** How a call of the constructor ends. *)
Inductive construction : Type :=
| Constructed (d : MIoTMediaDecoder) (hw_accel_type : option hw_accel)
| NoRunningLoop                (* RuntimeError of asyncio.get_running_loop() *)
| MIoTMediaDecoderError.       (* "audio_callback is required when enable audio" *)

(** [MIoTMediaDecoder.__init__]: [audio_callback_given] tells whether the
    argument is a callable (not None), [main_loop_given] likewise, and
    [loop_running] whether the calling thread runs an event loop. *)
Definition MIoTMediaDecoder_init (interval : Z) (audio_callback_given : bool)
    (hw : bool) (audio : bool) (main_loop_given loop_running : bool)
    (p : hw_probe) : construction :=
  if negb (main_loop_given || loop_running) then NoRunningLoop else
  if audio && negb audio_callback_given then MIoTMediaDecoderError else
  let detected := if hw then _detect_hw_acceleration p else (false, None) in
  Constructed
    (mkDecoder false interval hw (fst detected) audio (init default_maxlen)
       None None false 0 [] [])
    (snd detected).

(** ** Library paths *)

(** Python strings, as lists of characters. *)
Definition str : Type := list Ascii.ascii.

Definition lit (s : String.string) : str := String.list_ascii_of_string s.

(** [hay.startswith(needle)] *)
Fixpoint starts_with (needle hay : str) : bool :=
  match needle, hay with
  | [], _ => true
  | _ :: _, [] => false
  | c :: needle', h :: hay' => Ascii.eqb c h && starts_with needle' hay'
  end.

(** [needle in hay] for strings: [needle] occurs somewhere in [hay]. *)
Fixpoint str_in (needle hay : str) : bool :=
  starts_with needle hay ||
  match hay with
  | [] => false
  | _ :: hay' => str_in needle hay'
  end.

(** The two variables of [os.environ] that the setup touches. *)
Record environ : Type := mkEnviron {
  LD_LIBRARY_PATH : option str;
  LIBVA_DRIVERS_PATH : option str
}.

(** [os.environ.get(name, '')] *)
Definition get_or_empty (v : option str) : str :=
  match v with Some s => s | None => [] end.

(** [str(path / name)] for a path that is neither the root nor ["."]. *)
Definition path_join (path : str) (name : String.string) : str :=
  path ++ lit "/"%string ++ lit name.

(** The body shared by the FFmpeg and the VAAPI block: prepend the library
    directory unless its name already occurs in the variable. *)
Definition add_library_path (lib : str) (env : environ) : environ :=
  let current_ld_path := get_or_empty (LD_LIBRARY_PATH env) in
  if negb (str_in lib current_ld_path)
  then mkEnviron (Some (lib ++ lit ":"%string ++ current_ld_path)) (LIBVA_DRIVERS_PATH env)
  else env.

Definition ffmpeg_lib_of (third_party_dir : str) : str :=
  path_join (path_join (path_join (path_join third_party_dir "ffmpeg"%string) "linux"%string) "x86_64"%string) "lib"%string.

Definition vaapi_lib_of (third_party_dir : str) : str :=
  path_join (path_join (path_join (path_join third_party_dir "vaapi"%string) "linux"%string) "x86_64"%string) "lib"%string.

(** [_setup_library_paths], for the file system [fs_exists] and with
    [third_party_dir] the string of [Path(__file__).parent.parent.parent / "third_party"]. *)
Definition _setup_library_paths (fs_exists : str -> bool) (third_party_dir : str)
    (env : environ) : environ :=
  if negb (fs_exists third_party_dir) then env else
  let ffmpeg_lib := ffmpeg_lib_of third_party_dir in
  let env1 := if fs_exists ffmpeg_lib then add_library_path ffmpeg_lib env else env in
  let vaapi_lib := vaapi_lib_of third_party_dir in
  if fs_exists vaapi_lib then
    let env2 := add_library_path vaapi_lib env1 in
    let driver_path := path_join vaapi_lib "dri"%string in
    if fs_exists driver_path
    then mkEnviron (LD_LIBRARY_PATH env2) (Some driver_path)
    else env2
  else env1.

(** * Properties of the ring buffer *)

Unset Implicit Arguments.

Lemma is_I_true (f : MIoTCameraFrameData) : is_I f = true <-> keyframe f.
Proof.
  unfold is_I, keyframe. destruct (frame_type f); simpl; split; congruence.
Qed.

Lemma is_I_false (f : MIoTCameraFrameData) : is_I f = false <-> ~ keyframe f.
Proof.
  unfold is_I, keyframe. destruct (frame_type f); simpl; split; congruence.
Qed.

Section DequeFacts.
Variable A : Type.

Lemma deque_append_length (m : nat) (d : list A) (x : A) :
  length d <= m -> length (deque_append m d x) <= m.
Proof.
  intros Hd. unfold deque_append.
  destruct (Nat.ltb_spec m (length (d ++ [x]))) as [Hlt | Hge].
  - destruct d as [| y d]; simpl in *.
    + lia.
    + rewrite length_app. simpl. lia.
  - exact Hge.
Qed.

Lemma deque_append_room (m : nat) (d : list A) (x : A) :
  length d < m -> deque_append m d x = d ++ [x].
Proof.
  intros Hd. unfold deque_append.
  destruct (Nat.ltb_spec m (length (d ++ [x]))) as [Hlt | Hge]; [| reflexivity].
  rewrite length_app in Hlt. simpl in Hlt. lia.
Qed.

Lemma deque_del_middle (pre post : list A) (x : A) :
  deque_del (length pre) (pre ++ x :: post) = pre ++ post.
Proof.
  induction pre as [| y pre IH]; simpl; [reflexivity |].
  now rewrite IH.
Qed.

Lemma deque_del_length (i : nat) (d : list A) :
  length (deque_del i d) <= length d.
Proof.
  revert i. induction d as [| y d IH]; intros [| i]; simpl; auto.
  specialize (IH i). lia.
Qed.

Lemma nth_error_middle (pre post : list A) (x : A) :
  nth_error (pre ++ x :: post) (length pre) = Some x.
Proof.
  induction pre as [| y pre IH]; simpl; [reflexivity | exact IH].
Qed.
End DequeFacts.

(** The loop passes over keyframes without touching the lane. *)
Lemma evict_loop_all_keyframes (pre suf : list MIoTCameraFrameData) :
  Forall keyframe suf ->
  evict_loop (pre ++ suf) (seq (length pre) (length suf)) = Returned (pre ++ suf, false).
Proof.
  revert pre. induction suf as [| f suf IH]; intros pre Hall.
  - reflexivity.
  - inversion Hall as [| ? ? Hf Hsuf]; subst.
    simpl. rewrite nth_error_middle.
    apply is_I_true in Hf. rewrite Hf. simpl.
    specialize (IH (pre ++ [f]) Hsuf).
    rewrite <- app_assoc, length_app in IH. simpl in IH.
    rewrite Nat.add_1_r in IH. exact IH.
Qed.

(** The loop deletes the first record that is not a keyframe and stops. *)
Lemma evict_loop_first_non_keyframe (pre mid post : list MIoTCameraFrameData)
    (x : MIoTCameraFrameData) :
  Forall keyframe mid -> ~ keyframe x ->
  evict_loop (pre ++ mid ++ x :: post) (seq (length pre) (length (mid ++ x :: post)))
  = Returned (pre ++ mid ++ post, true).
Proof.
  revert pre. induction mid as [| f mid IH]; intros pre Hall Hx.
  - simpl. rewrite nth_error_middle.
    apply is_I_false in Hx. rewrite Hx. simpl.
    now rewrite deque_del_middle.
  - inversion Hall as [| ? ? Hf Hmid]; subst.
    simpl. rewrite nth_error_middle.
    apply is_I_true in Hf. rewrite Hf. simpl.
    specialize (IH (pre ++ [f]) Hmid Hx).
    rewrite <- !app_assoc, length_app in IH. simpl in IH.
    rewrite Nat.add_1_r in IH. exact IH.
Qed.

Lemma evict_loop_shrinks (buf : list MIoTCameraFrameData) (idxs : list nat)
    (buf' : list MIoTCameraFrameData) (removed : bool) :
  evict_loop buf idxs = Returned (buf', removed) -> length buf' <= length buf.
Proof.
  induction idxs as [| i idxs IH]; simpl.
  - intros H. injection H as <- _. lia.
  - destruct (nth_error buf i) as [f |]; [| discriminate].
    destruct (negb (is_I f)).
    + intros H. injection H as <- _. apply deque_del_length.
    + exact IH.
Qed.

(** A lane either holds keyframes only or splits at its first non-keyframe. *)
Lemma first_non_keyframe_split (lane : list MIoTCameraFrameData) :
  Forall keyframe lane \/
  exists pre x post,
    lane = pre ++ x :: post /\ Forall keyframe pre /\ ~ keyframe x.
Proof.
  induction lane as [| f lane IH].
  - left. constructor.
  - destruct (is_I f) eqn:Hf.
    + apply is_I_true in Hf.
      destruct IH as [Hall | (pre & x & post & -> & Hpre & Hx)].
      * left. now constructor.
      * right. exists (f :: pre), x, post. repeat split; auto.
    + apply is_I_false in Hf.
      right. exists [], f, lane. repeat split; auto.
Qed.

(** The split of a lane at its first non-keyframe is unique. *)
Lemma split_unique (pre pre' post post' : list MIoTCameraFrameData)
    (x x' : MIoTCameraFrameData) :
  pre ++ x :: post = pre' ++ x' :: post' ->
  Forall keyframe pre -> ~ keyframe x ->
  Forall keyframe pre' -> ~ keyframe x' ->
  pre = pre' /\ x = x' /\ post = post'.
Proof.
  revert pre'. induction pre as [| f pre IH]; intros [| f' pre'] Heq Hp Hx Hp' Hx';
    simpl in Heq; injection Heq as -> Heq.
  - now subst.
  - inversion Hp'; subst. contradiction.
  - inversion Hp; subst. contradiction.
  - inversion Hp; inversion Hp'; subst.
    destruct (IH pre' Heq) as (-> & -> & ->); auto.
Qed.

(** What [put_video] does to a full lane when a keyframe arrives. *)
Lemma put_video_full_I_evicts (b : MIoTMediaRingBuffer) (item : MIoTCameraFrameData)
    (pre post : list MIoTCameraFrameData) (x : MIoTCameraFrameData) :
  cond b = true -> length (video_buffer b) = maxlen b -> keyframe item ->
  video_buffer b = pre ++ x :: post -> Forall keyframe pre -> ~ keyframe x ->
  put_video b item =
    (emit (emit (set_video b (pre ++ post ++ [item])) Notify)
          (LogDrop (codec_id item) (timestamp item)), Returned tt).
Proof.
  intros Hc Hlen Hitem Hsplit Hpre Hx. unfold put_video.
  rewrite Hc. simpl. rewrite Hlen, Nat.leb_refl.
  apply is_I_true in Hitem. rewrite Hitem.
  rewrite <- Hlen, Hsplit.
  pose proof (evict_loop_first_non_keyframe [] pre post x Hpre Hx) as Hloop.
  simpl in Hloop. rewrite Hloop.
  rewrite deque_append_room.
  - now rewrite <- app_assoc.
  - rewrite !length_app. simpl. lia.
Qed.

Lemma put_video_full_I_oldest (b : MIoTMediaRingBuffer) (item : MIoTCameraFrameData)
    (oldest : MIoTCameraFrameData) (rest : list MIoTCameraFrameData) :
  cond b = true -> length (video_buffer b) = maxlen b -> keyframe item ->
  video_buffer b = oldest :: rest -> Forall keyframe (video_buffer b) ->
  put_video b item =
    (emit (emit (set_video b (rest ++ [item])) Notify)
          (LogDrop (codec_id item) (timestamp item)), Returned tt).
Proof.
  intros Hc Hlen Hitem Hlane Hall. unfold put_video.
  rewrite Hc. simpl. rewrite Hlen, Nat.leb_refl.
  apply is_I_true in Hitem. rewrite Hitem.
  rewrite <- Hlen.
  pose proof (evict_loop_all_keyframes [] _ Hall) as Hloop.
  simpl in Hloop. rewrite Hloop. rewrite Hlane. simpl.
  rewrite deque_append_room; [reflexivity |].
  rewrite Hlane in Hlen. simpl in Hlen. simpl. lia.
Qed.

(** A full lane drops a record that is not a keyframe. *)
Lemma put_video_full_drop (b : MIoTMediaRingBuffer) (item : MIoTCameraFrameData) :
  cond b = true -> length (video_buffer b) = maxlen b -> ~ keyframe item ->
  put_video b item
    = (emit b (LogDrop (codec_id item) (timestamp item)), Returned tt).
Proof.
  intros Hc Hlen Hitem.
  unfold put_video. rewrite Hc. simpl. rewrite Hlen, Nat.leb_refl.
  apply is_I_false in Hitem. now rewrite Hitem.
Qed.

(** ** Keyframe arriving at a full video lane *)

(** C1: on a live buffer of capacity N >= 1 whose video lane holds N records,
    [put_video] of a keyframe returns normally and leaves N records in the
    lane.  If the lane holds a record that is not a keyframe, the lane splits
    as [pre ++ x :: post] with [pre] keyframes only and [x] its first
    non-keyframe, and the new lane is [pre ++ post ++ [item]]: exactly [x] is
    removed, every keyframe stays.  If the lane holds keyframes only, its
    oldest record is removed and the keyframe is appended. *)
Theorem put_video_full_keyframe (b : MIoTMediaRingBuffer) (item : MIoTCameraFrameData) :
  cond b = true -> 0 < maxlen b -> length (video_buffer b) = maxlen b ->
  keyframe item ->
  snd (put_video b item) = Returned tt /\
  length (video_buffer (fst (put_video b item))) = maxlen b /\
  (Exists (fun f => ~ keyframe f) (video_buffer b) ->
   exists pre x post,
     video_buffer b = pre ++ x :: post /\ Forall keyframe pre /\ ~ keyframe x /\
     video_buffer (fst (put_video b item)) = pre ++ post ++ [item]) /\
  (Forall keyframe (video_buffer b) ->
   exists oldest rest,
     video_buffer b = oldest :: rest /\
     video_buffer (fst (put_video b item)) = rest ++ [item]).
Proof.
  intros Hc Hpos Hlen Hitem.
  destruct (first_non_keyframe_split (video_buffer b))
    as [Hall | (pre & x & post & Hsplit & Hpre & Hx)].
  - destruct (video_buffer b) as [| oldest rest] eqn:Hlane.
    { simpl in Hlen. lia. }
    rewrite <- Hlane in Hall, Hlen.
    rewrite (put_video_full_I_oldest b item oldest rest Hc Hlen Hitem Hlane Hall). simpl.
    repeat split.
    + rewrite length_app. rewrite Hlane in Hlen. simpl in *. lia.
    + intros Hex. exfalso.
      rewrite Hlane in Hall.
      apply Exists_exists in Hex. destruct Hex as (f & Hin & Hf).
      apply Hf. rewrite Forall_forall in Hall. now apply Hall.
    + intros _. exists oldest, rest. split; reflexivity.
  - rewrite (put_video_full_I_evicts b item pre post x Hc Hlen Hitem Hsplit Hpre Hx). simpl.
    repeat split.
    + rewrite <- Hlen, Hsplit. repeat (rewrite length_app; simpl). lia.
    + intros _. exists pre, x, post. repeat split; auto.
    + intros Hall. exfalso. rewrite Hsplit in Hall.
      apply Forall_app in Hall. destruct Hall as [_ Hall].
      inversion Hall; subst. contradiction.
Qed.

Lemma put_video_full_keyframe_witness :
  cond full_mixed = true /\
  length (video_buffer full_mixed) = maxlen full_mixed /\
  keyframe (i_frame 4) /\
  snd (put_video full_mixed (i_frame 4)) = Returned tt /\
  length (video_buffer (fst (put_video full_mixed (i_frame 4)))) = 3 /\
  video_buffer (fst (put_video full_mixed (i_frame 4)))
    = [i_frame 1; i_frame 3; i_frame 4].
Proof.
  split; [reflexivity | split; [reflexivity | split; [reflexivity |]]].
  destruct (put_video_full_keyframe full_mixed (i_frame 4)) as (Hret & Hlen & _).
  - reflexivity.
  - simpl. lia.
  - reflexivity.
  - reflexivity.
  - split; [exact Hret | split; [exact Hlen | reflexivity]].
Defined.

(** A lane of keyframes only loses its oldest record. *)
Example put_video_all_keyframes :
  video_buffer (fst (put_video full_of_keyframes (i_frame 4)))
    = [i_frame 2; i_frame 3; i_frame 4].
Proof. reflexivity. Qed.

(** Scenario B: 20 non-keyframes fill the lane, then a keyframe arrives; the
    record stamped 0 makes room for it. *)
Example scenario_B :
  map timestamp
    (video_buffer
       (put_all (init 20)
          (map PutVideo (firstn 20 scenario_A) ++ [PutVideo (i_frame 100)])))
  = map Z.of_nat (seq 1 19) ++ [100%Z].
Proof. reflexivity. Qed.

(** With capacity 0 the lane is full while empty; a keyframe then makes
    [popleft] raise and the lane stays empty. *)
Example put_video_capacity_0 :
  put_video (init 0) (i_frame 1) = (init 0, Raised IndexError).
Proof. reflexivity. Qed.

(** ** Non-keyframe arriving at a full video lane *)

(** C5: on a live buffer whose video lane is full, [put_video] of a record
    that is not a keyframe returns normally and leaves both lanes as they
    were, in the same order; the record is not stored and nobody is
    notified (only the log line is written). *)
Theorem put_video_full_non_keyframe (b : MIoTMediaRingBuffer) (item : MIoTCameraFrameData) :
  cond b = true -> length (video_buffer b) = maxlen b -> ~ keyframe item ->
  put_video b item
    = (emit b (LogDrop (codec_id item) (timestamp item)), Returned tt) /\
  video_buffer (fst (put_video b item)) = video_buffer b /\
  audio_buffer (fst (put_video b item)) = audio_buffer b /\
  snd (put_video b item) = Returned tt.
Proof.
  intros Hc Hlen Hitem.
  rewrite (put_video_full_drop b item Hc Hlen Hitem). simpl.
  repeat split; reflexivity.
Qed.

Lemma put_video_full_non_keyframe_witness :
  cond full_mixed = true /\
  length (video_buffer full_mixed) = maxlen full_mixed /\
  video_buffer (fst (put_video full_mixed (p_frame 4)))
    = [i_frame 1; p_frame 2; i_frame 3] /\
  snd (put_video full_mixed (p_frame 4)) = Returned tt.
Proof.
  split; [reflexivity | split; [reflexivity |]].
  destruct (put_video_full_non_keyframe full_mixed (p_frame 4)) as (_ & Hv & _ & Hr).
  - reflexivity.
  - reflexivity.
  - unfold keyframe. simpl. discriminate.
  - split; [exact Hv | exact Hr].
Defined.

(** ** Capacity bound *)

Lemma put_video_within (b : MIoTMediaRingBuffer) (item : MIoTCameraFrameData) :
  within_capacity (maxlen b) b ->
  maxlen (fst (put_video b item)) = maxlen b /\
  within_capacity (maxlen b) (fst (put_video b item)).
Proof.
  intros [Hv Ha]. unfold put_video, within_capacity.
  destruct (cond b); simpl; [| auto].
  destruct (Nat.leb_spec (maxlen b) (length (video_buffer b))) as [Hfull | Hroom].
  - destruct (is_I item); simpl; [| auto].
    destruct (evict_loop (video_buffer b) (seq 0 (length (video_buffer b))))
      as [[buf removed] |] eqn:Hloop; simpl; [| auto].
    apply evict_loop_shrinks in Hloop.
    destruct removed; simpl.
    + repeat split; auto. apply deque_append_length. lia.
    + destruct buf as [| f buf]; simpl.
      * repeat split; auto. lia.
      * repeat split; auto. apply deque_append_length. simpl in Hloop. lia.
  - repeat split; auto. apply deque_append_length. lia.
Qed.

Lemma put_audio_within (b : MIoTMediaRingBuffer) (item : MIoTCameraFrameData) :
  within_capacity (maxlen b) b ->
  maxlen (fst (put_audio b item)) = maxlen b /\
  within_capacity (maxlen b) (fst (put_audio b item)).
Proof.
  intros [Hv Ha]. unfold put_audio, within_capacity.
  destruct (cond b); simpl; [| auto].
  repeat split; auto. now apply deque_append_length.
Qed.

Lemma states_after_within (n : nat) (calls : list put_call) (b : MIoTMediaRingBuffer) :
  maxlen b = n -> within_capacity n b ->
  Forall (within_capacity n) (states_after b calls).
Proof.
  revert b. induction calls as [| c calls IH]; intros b Hn Hb; simpl.
  - constructor.
  - assert (maxlen (fst (do_put b c)) = n /\ within_capacity n (fst (do_put b c)))
      as [Hn' Hb'].
    { subst n. destruct c; simpl; [now apply put_video_within | now apply put_audio_within]. }
    constructor; [exact Hb' | now apply IH].
Qed.

(** C2: starting from a fresh buffer of capacity N, after each call of any
    sequence of [put_video] and [put_audio] calls both lanes hold at most N
    records. *)
Theorem lanes_within_capacity (n : nat) (calls : list put_call) :
  Forall (within_capacity n) (states_after (init n) calls).
Proof.
  apply states_after_within; [reflexivity |].
  split; simpl; lia.
Qed.

(** The same for the default capacity. *)
Corollary lanes_within_default_capacity (calls : list put_call) :
  Forall (within_capacity 20) (states_after (init default_maxlen) calls).
Proof. apply lanes_within_capacity. Qed.

(** ** Scenario A: non-keyframes only *)

Lemma firstn_full_app {A : Type} (n : nat) (v l : list A) :
  length v = n -> firstn n (v ++ l) = v.
Proof.
  intros <-. rewrite firstn_app, Nat.sub_diag, firstn_all. simpl.
  apply app_nil_r.
Qed.

(** A run of non-keyframes fills the free room of the lane and the rest of
    the run is dropped on arrival. *)
Lemma put_all_non_keyframes (n : nat) (l : list MIoTCameraFrameData)
    (b : MIoTMediaRingBuffer) :
  cond b = true -> maxlen b = n -> length (video_buffer b) <= n ->
  Forall (fun f => ~ keyframe f) l ->
  video_buffer (put_all b (map PutVideo l)) = firstn n (video_buffer b ++ l).
Proof.
  revert b. induction l as [| f l IH]; intros b Hc Hn Hlen Hl.
  - simpl. rewrite app_nil_r. symmetry. now apply firstn_all2.
  - inversion Hl as [| ? ? Hf Hrest]; subst.
    unfold put_all. simpl. fold (put_all (fst (put_video b f)) (map PutVideo l)).
    destruct (Nat.leb_spec (maxlen b) (length (video_buffer b))) as [Hfull | Hroom].
    + assert (length (video_buffer b) = maxlen b) as Heq by lia.
      rewrite (put_video_full_drop b f Hc Heq Hf). simpl.
      rewrite IH; auto.
      simpl. now rewrite !firstn_full_app.
    + assert (put_video b f
              = (emit (set_video b (video_buffer b ++ [f])) Notify, Returned tt)) as E.
      { unfold put_video. rewrite Hc. simpl.
        destruct (Nat.leb_spec (maxlen b) (length (video_buffer b))); [lia |].
        now rewrite deque_append_room. }
      rewrite E. simpl.
      rewrite IH; auto.
      * simpl. now rewrite <- app_assoc.
      * simpl. rewrite length_app. simpl. lia.
Qed.

(** C6 (as the code has it): 25 records that are not keyframes, pushed into
    a fresh buffer of capacity 20, leave 20 records in the video lane, and
    these are the 20 pushed first, in order; the 5 pushed last were dropped
    on arrival and nothing was evicted. *)
Theorem scenario_A_keeps_first_20 (l : list MIoTCameraFrameData) :
  length l = 25 -> Forall (fun f => ~ keyframe f) l ->
  length (video_buffer (put_all (init 20) (map PutVideo l))) = 20 /\
  video_buffer (put_all (init 20) (map PutVideo l)) = firstn 20 l.
Proof.
  intros Hlen Hl.
  assert (video_buffer (put_all (init 20) (map PutVideo l)) = firstn 20 l) as E.
  { rewrite (put_all_non_keyframes 20 l (init 20) eq_refl eq_refl (Nat.le_0_l 20) Hl).
    reflexivity. }
  rewrite E. split; [| reflexivity].
  rewrite length_firstn. lia.
Qed.

Lemma scenario_A_non_keyframes : Forall (fun f => ~ keyframe f) scenario_A.
Proof.
  unfold scenario_A. apply Forall_forall. intros f Hin.
  apply in_map_iff in Hin. destruct Hin as (k & <- & _).
  unfold keyframe. simpl. discriminate.
Qed.

Lemma scenario_A_keeps_first_20_witness :
  length scenario_A = 25 /\
  video_buffer (put_all (init 20) (map PutVideo scenario_A)) = firstn 20 scenario_A.
Proof.
  split; [reflexivity |].
  apply (scenario_A_keeps_first_20 scenario_A);
    [reflexivity | exact scenario_A_non_keyframes].
Defined.

(** C6 as stated fails on Scenario A: the lane ends with the records stamped
    0..19, not with the 20 pushed last (stamped 5..24). *)
Lemma scenario_A_most_recent_dropped :
  map timestamp (video_buffer (put_all (init 20) (map PutVideo scenario_A)))
    = map Z.of_nat (seq 0 20) /\
  map timestamp (skipn 5 scenario_A) = map Z.of_nat (seq 5 20) /\
  video_buffer (put_all (init 20) (map PutVideo scenario_A)) <> skipn 5 scenario_A.
Proof.
  split; [reflexivity | split; [reflexivity |]].
  intros H. apply (f_equal (map timestamp)) in H.
  vm_compute in H. discriminate H.
Qed.

(** ** Calls after stop *)

(** C7 (as the code has it): once [stop] has run on a live buffer, both
    lanes are empty and stay empty, and every later [put_video] or
    [put_audio] raises AttributeError (the condition attribute is gone)
    without touching the buffer. *)
Theorem put_after_stop_raises (b : MIoTMediaRingBuffer) :
  cond b = true ->
  video_buffer (fst (stop b)) = [] /\
  audio_buffer (fst (stop b)) = [] /\
  (forall c, do_put (fst (stop b)) c = (fst (stop b), Raised AttributeError)) /\
  (forall calls, put_all (fst (stop b)) calls = fst (stop b)).
Proof.
  intros Hc. unfold stop. rewrite Hc. simpl.
  assert (forall c s, cond s = false -> do_put s c = (s, Raised AttributeError)) as Hput.
  { intros [item | item] s Hs; simpl; unfold put_video, put_audio; now rewrite Hs. }
  repeat split.
  - intros c. now apply Hput.
  - intros calls. induction calls as [| c calls IH]; [reflexivity |].
    unfold put_all in *. simpl. rewrite Hput by reflexivity. exact IH.
Qed.

Lemma put_after_stop_raises_witness :
  cond full_mixed = true /\
  do_put (fst (stop full_mixed)) (PutVideo (i_frame 9))
    = (fst (stop full_mixed), Raised AttributeError).
Proof.
  split; [reflexivity |].
  apply (put_after_stop_raises full_mixed). reflexivity.
Defined.

(** C7 as stated fails: after [stop] on a fresh buffer both producer calls
    raise. *)
Lemma put_after_stop_not_silent :
  snd (put_video (fst (stop (init 20))) (p_frame 1)) = Raised AttributeError /\
  snd (put_audio (fst (stop (init 20))) (opus_frame 1)) = Raised AttributeError.
Proof. split; reflexivity. Qed.

(** A second [stop] raises as well. *)
Example stop_twice : snd (stop (fst (stop (init 20)))) = Raised AttributeError.
Proof. reflexivity. Qed.

(** ** Priority of video over audio in step *)

(** The three ways through [step] on a live buffer. *)
Lemma step_video_front (S : Type)
    (on_video_frame on_audio_frame : MIoTCameraFrameData -> S -> S * outcome unit)
    (timeout_ms : Z) (b : MIoTMediaRingBuffer) (s : S)
    (f : MIoTCameraFrameData) (rest : list MIoTCameraFrameData) :
  cond b = true -> video_buffer b = f :: rest ->
  step on_video_frame on_audio_frame timeout_ms b s
    = (set_video b rest, fst (on_video_frame f s), snd (on_video_frame f s)).
Proof.
  intros Hc Hv. unfold step, step_get. rewrite Hc, Hv. simpl.
  now destruct (on_video_frame f s).
Qed.

Lemma step_audio_front (S : Type)
    (on_video_frame on_audio_frame : MIoTCameraFrameData -> S -> S * outcome unit)
    (timeout_ms : Z) (b : MIoTMediaRingBuffer) (s : S)
    (f : MIoTCameraFrameData) (rest : list MIoTCameraFrameData) :
  cond b = true -> video_buffer b = [] -> audio_buffer b = f :: rest ->
  step on_video_frame on_audio_frame timeout_ms b s
    = (set_audio b rest, fst (on_audio_frame f s), snd (on_audio_frame f s)).
Proof.
  intros Hc Hv Ha. unfold step, step_get. rewrite Hc, Hv, Ha. simpl.
  now destruct (on_audio_frame f s).
Qed.

Lemma step_idle (S : Type)
    (on_video_frame on_audio_frame : MIoTCameraFrameData -> S -> S * outcome unit)
    (timeout_ms : Z) (b : MIoTMediaRingBuffer) (s : S) :
  cond b = true -> video_buffer b = [] -> audio_buffer b = [] ->
  step on_video_frame on_audio_frame timeout_ms b s
    = (emit b (Wait timeout_ms), s, Returned tt).
Proof.
  intros Hc Hv Ha. unfold step, step_get. now rewrite Hc, Hv, Ha.
Qed.

(** C3 (as the code has it): on a live buffer, that is one on which [stop]
    has not run, [step] takes the front of the video lane whenever
    that lane is not empty and hands it to the video handler, leaving the
    audio lane alone; with an empty video lane it takes the front of the
    audio lane and hands it to the audio handler; with both lanes empty it
    waits on the condition for the timeout, calls no handler and returns
    normally. *)
Theorem step_priority (S : Type)
    (on_video_frame on_audio_frame : MIoTCameraFrameData -> S -> S * outcome unit)
    (timeout_ms : Z) (b : MIoTMediaRingBuffer) (s : S) :
  cond b = true ->
  (forall f rest, video_buffer b = f :: rest ->
     step on_video_frame on_audio_frame timeout_ms b s
       = (set_video b rest, fst (on_video_frame f s), snd (on_video_frame f s))) /\
  (forall f rest, video_buffer b = [] -> audio_buffer b = f :: rest ->
     step on_video_frame on_audio_frame timeout_ms b s
       = (set_audio b rest, fst (on_audio_frame f s), snd (on_audio_frame f s))) /\
  (video_buffer b = [] -> audio_buffer b = [] ->
     step on_video_frame on_audio_frame timeout_ms b s
       = (emit b (Wait timeout_ms), s, Returned tt)).
Proof.
  intros Hc. repeat split.
  - intros f rest Hv. now apply step_video_front.
  - intros f rest Hv Ha. now apply step_audio_front.
  - intros Hv Ha. now apply step_idle.
Qed.

Lemma step_priority_witness :
  cond both_lanes = true /\
  step note_video note_audio 200 both_lanes []
    = (mkRB 20 [p_frame 8] [opus_frame 5] true [], [TakeVideo (p_frame 7)], Returned tt).
Proof.
  split; [reflexivity |].
  destruct (step_priority (list taken) note_video note_audio 200 both_lanes [])
    as (Hv & _ & _); [reflexivity |].
  exact (Hv (p_frame 7) [p_frame 8] eq_refl).
Defined.

(** C3 as stated fails on a stopped buffer: both lanes are empty, yet [step]
    neither waits nor returns; it raises AttributeError, and no handler is
    called. *)
Lemma step_after_stop_raises :
  video_buffer (fst (stop (init 20))) = [] /\
  audio_buffer (fst (stop (init 20))) = [] /\
  step note_video note_audio default_timeout_ms (fst (stop (init 20))) []
    = (fst (stop (init 20)), [], Raised AttributeError).
Proof. repeat split. Qed.

(** * Properties of the decoder worker *)

Ltac run_py :=
  unfold _on_video_callback, _on_audio_callback, decode_video_packet,
    decode_audio_packet, bind_video_decoder, bind_audio_decoder,
    make_video_decoder, _init_hw_decoder, create_codec, decode_video,
    decode_audio, rate_gate, call_soon_threadsafe, try_except,
    bind, ret, raise, get, modify in *;
  simpl in *.

(** The decode stage leaves the rate gate's state and the task list alone. *)
Lemma decode_video_packet_frame (w : world) (fd : MIoTCameraFrameData)
    (d : MIoTMediaDecoder) :
  frame_interval (fst (decode_video_packet w fd d)) = frame_interval d /\
  last_jpeg_ts (fst (decode_video_packet w fd d)) = last_jpeg_ts d /\
  scheduled (fst (decode_video_packet w fd d)) = scheduled d.
Proof.
  destruct d as [run iv hw hwa acb q vd ad rs last sch lg]. run_py.
  destruct vd as [c |]; simpl.
  - destruct (w_video_decode w); simpl; auto.
  - destruct (codec_id fd); simpl; auto;
      destruct (hw && hwa); simpl;
      destruct (w_hw_create w); simpl;
      destruct (w_create w); simpl;
      destruct (w_video_decode w); simpl; auto.
Qed.

Lemma decode_audio_packet_frame (w : world) (fd : MIoTCameraFrameData)
    (d : MIoTMediaDecoder) :
  frame_interval (fst (decode_audio_packet w fd d)) = frame_interval d /\
  last_jpeg_ts (fst (decode_audio_packet w fd d)) = last_jpeg_ts d /\
  scheduled (fst (decode_audio_packet w fd d)) = scheduled d /\
  audio_callback (fst (decode_audio_packet w fd d)) = audio_callback d.
Proof.
  destruct d as [run iv hw hwa acb q vd ad rs last sch lg]. run_py.
  destruct ad as [c |]; simpl.
  - destruct (w_audio_decode w); simpl; auto.
  - destruct (codec_id fd); simpl; auto;
      destruct (w_create w); simpl;
      destruct (w_audio_decode w); simpl; auto.
Qed.

(** After a decode that returned, the handler is the rate gate. *)
Lemma on_video_callback_decoded (w : world) (fd : MIoTCameraFrameData)
    (d : MIoTMediaDecoder) (frames : list VideoFrame) :
  snd (decode_video_packet w fd d) = Returned frames ->
  _on_video_callback w fd d = rate_gate w fd frames (fst (decode_video_packet w fd d)).
Proof.
  intros H. unfold _on_video_callback, bind at 1.
  destruct (decode_video_packet w fd d) as [d1 o]. simpl in *. now subst o.
Qed.

(** When the decode stage raises, the handler raises the same exception and
    the rate gate is not reached. *)
Lemma on_video_callback_raised (w : world) (fd : MIoTCameraFrameData)
    (d : MIoTMediaDecoder) (e : exn) :
  snd (decode_video_packet w fd d) = Raised e ->
  _on_video_callback w fd d = (fst (decode_video_packet w fd d), Raised e).
Proof.
  intros H. unfold _on_video_callback, bind at 1.
  destruct (decode_video_packet w fd d) as [d1 o]. simpl in *. now subst o.
Qed.

(** The four ways through the rate gate. *)
Lemma rate_gate_closed (w : world) (fd : MIoTCameraFrameData)
    (frames : list VideoFrame) (d : MIoTMediaDecoder) :
  (w_now w - last_jpeg_ts d < frame_interval d)%Z ->
  rate_gate w fd frames d = (d, Returned tt).
Proof.
  intros H. unfold rate_gate, bind, get. simpl.
  destruct (Z.leb_spec (frame_interval d) (w_now w - last_jpeg_ts d)); [lia | reflexivity].
Qed.

Lemma rate_gate_no_frame (w : world) (fd : MIoTCameraFrameData) (d : MIoTMediaDecoder) :
  (frame_interval d <= w_now w - last_jpeg_ts d)%Z ->
  rate_gate w fd [] d
  = (set_last_jpeg_ts (w_now w)
       (add_log (InfoVideoFrameEmpty (codec_id fd) (timestamp fd)) d), Returned tt).
Proof.
  intros H. unfold rate_gate, bind, get. simpl.
  destruct (Z.leb_spec (frame_interval d) (w_now w - last_jpeg_ts d)); [reflexivity | lia].
Qed.

Lemma rate_gate_forward (w : world) (fd : MIoTCameraFrameData) (d : MIoTMediaDecoder)
    (frame : VideoFrame) (rest : list VideoFrame) (jpeg : bytes) :
  (frame_interval d <= w_now w - last_jpeg_ts d)%Z ->
  w_jpeg w frame = Some jpeg -> w_call_soon w = true ->
  rate_gate w fd (frame :: rest) d
  = (set_last_jpeg_ts (w_now w)
       (add_task (VideoTask jpeg (timestamp fd) (channel fd)) d), Returned tt).
Proof.
  intros H Hj Hc. run_py.
  destruct (Z.leb_spec (frame_interval d) (w_now w - last_jpeg_ts d)); [| lia].
  rewrite Hj. simpl. rewrite Hc. reflexivity.
Qed.

Lemma rate_gate_failed (w : world) (fd : MIoTCameraFrameData) (d : MIoTMediaDecoder)
    (frame : VideoFrame) (rest : list VideoFrame) :
  (frame_interval d <= w_now w - last_jpeg_ts d)%Z ->
  w_jpeg w frame = None \/ w_call_soon w = false ->
  exists e,
    rate_gate w fd (frame :: rest) d
    = (add_log (ErrorProcessVideoFrame e) d, Returned tt).
Proof.
  intros H Hfail. run_py.
  destruct (Z.leb_spec (frame_interval d) (w_now w - last_jpeg_ts d)); [| lia].
  destruct (w_jpeg w frame) as [jpeg |]; simpl.
  - destruct Hfail as [Hj | Hc]; [discriminate |].
    rewrite Hc. simpl. now exists RuntimeError.
  - now exists AVError.
Qed.

(** ** The rate gate's timestamp *)

(** C8 (as the code has it): at an emission tick, that is when the decode of
    a video record returned and [now - last_jpeg_ts >= frame_interval], the
    handler returns normally and
    - with zero frames, [last_jpeg_ts] becomes [now] and nothing is scheduled;
    - when the first frame is converted and the task is accepted,
      [last_jpeg_ts] becomes [now] and exactly that task is scheduled;
    - when the conversion or the scheduling raises, [last_jpeg_ts] keeps its
      value and nothing is scheduled. *)
Theorem emission_tick_advance (w : world) (fd : MIoTCameraFrameData)
    (d : MIoTMediaDecoder) (frames : list VideoFrame) :
  snd (decode_video_packet w fd d) = Returned frames ->
  (frame_interval d <= w_now w - last_jpeg_ts d)%Z ->
  snd (_on_video_callback w fd d) = Returned tt /\
  (frames = [] ->
     last_jpeg_ts (fst (_on_video_callback w fd d)) = w_now w /\
     scheduled (fst (_on_video_callback w fd d)) = scheduled d) /\
  (forall frame rest jpeg,
     frames = frame :: rest -> w_jpeg w frame = Some jpeg -> w_call_soon w = true ->
     last_jpeg_ts (fst (_on_video_callback w fd d)) = w_now w /\
     scheduled (fst (_on_video_callback w fd d))
       = scheduled d ++ [VideoTask jpeg (timestamp fd) (channel fd)]) /\
  (forall frame rest,
     frames = frame :: rest -> w_jpeg w frame = None \/ w_call_soon w = false ->
     last_jpeg_ts (fst (_on_video_callback w fd d)) = last_jpeg_ts d /\
     scheduled (fst (_on_video_callback w fd d)) = scheduled d).
Proof.
  intros Hdec Htick.
  rewrite (on_video_callback_decoded w fd d frames Hdec).
  destruct (decode_video_packet_frame w fd d) as (Hiv & Hlast & Hsch).
  set (d1 := fst (decode_video_packet w fd d)) in *.
  assert (frame_interval d1 <= w_now w - last_jpeg_ts d1)%Z as Htick1
    by (rewrite Hiv, Hlast; exact Htick).
  split; [| split; [| split]].
  - destruct frames as [| frame rest].
    + now rewrite rate_gate_no_frame.
    + destruct (w_jpeg w frame) as [jpeg |] eqn:Hj.
      * destruct (w_call_soon w) eqn:Hc.
        -- now rewrite (rate_gate_forward w fd d1 frame rest jpeg).
        -- destruct (rate_gate_failed w fd d1 frame rest Htick1 (or_intror Hc)) as [e E].
           now rewrite E.
      * destruct (rate_gate_failed w fd d1 frame rest Htick1 (or_introl Hj)) as [e E].
        now rewrite E.
  - intros ->. rewrite rate_gate_no_frame by exact Htick1. simpl. auto.
  - intros frame rest jpeg -> Hj Hc.
    rewrite (rate_gate_forward w fd d1 frame rest jpeg Htick1 Hj Hc). simpl.
    now rewrite Hsch.
  - intros frame rest -> Hfail.
    destruct (rate_gate_failed w fd d1 frame rest Htick1 Hfail) as [e E].
    rewrite E. simpl. auto.
Qed.

Lemma emission_tick_advance_witness :
  snd (decode_video_packet (no_frame_world 5000) (p_frame 1) (bound_decoder 1000 0))
    = Returned [] /\
  last_jpeg_ts (fst (_on_video_callback (no_frame_world 5000) (p_frame 1)
                       (bound_decoder 1000 0))) = 5000%Z.
Proof.
  split; [reflexivity |].
  destruct (emission_tick_advance (no_frame_world 5000) (p_frame 1)
              (bound_decoder 1000 0) []) as (_ & H0 & _).
  - reflexivity.
  - simpl. lia.
  - exact (proj1 (H0 eq_refl)).
Defined.

(** C8 as stated fails: at an emission tick whose JPEG conversion raises,
    the handler returns with [last_jpeg_ts] still 0 although the clock reads
    5000. *)
Lemma conversion_failure_keeps_timestamp :
  snd (decode_video_packet (bad_jpeg_world 5000) (i_frame 1) (bound_decoder 1000 0))
    = Returned [1] /\
  (frame_interval (bound_decoder 1000 0)
   <=? w_now (bad_jpeg_world 5000) - last_jpeg_ts (bound_decoder 1000 0))%Z = true /\
  _on_video_callback (bad_jpeg_world 5000) (i_frame 1) (bound_decoder 1000 0)
    = (add_log (ErrorProcessVideoFrame AVError) (bound_decoder 1000 0), Returned tt) /\
  last_jpeg_ts (fst (_on_video_callback (bad_jpeg_world 5000) (i_frame 1)
                       (bound_decoder 1000 0))) = 0%Z.
Proof. repeat split. Qed.

(** ** Spacing of video emissions *)

Lemma filter_video_snoc_audio (l : list task) (pcm : bytes) (ts ch : Z) :
  filter is_video_task (l ++ [AudioTask pcm ts ch]) = filter is_video_task l.
Proof. rewrite filter_app. simpl. apply app_nil_r. Qed.

(** The audio handler either raises out of the state its decode stage left,
    or schedules one audio task on top of that state. *)
Lemma on_audio_callback_cases (w : world) (fd : MIoTCameraFrameData)
    (d : MIoTMediaDecoder) :
  (exists e,
     _on_audio_callback w fd d = (fst (decode_audio_packet w fd d), Raised e)) \/
  (exists pcm,
     _on_audio_callback w fd d
     = (add_task (AudioTask pcm (timestamp fd) (channel fd))
          (fst (decode_audio_packet w fd d)), Returned tt)).
Proof.
  unfold _on_audio_callback, bind, get.
  destruct (decode_audio_packet w fd d) as [d1 [frames | e]]; simpl;
    [| left; now exists e].
  destruct (resample_frames (resampler d1) w frames []) as [pcm | e]; simpl;
    [| left; now exists e].
  destruct (audio_callback d1); simpl; [| left; now exists AttributeError].
  unfold call_soon_threadsafe, modify, raise.
  destruct (w_call_soon w); simpl; [| left; now exists RuntimeError].
  right. now exists pcm.
Qed.

(** The audio handler never touches the rate gate; it adds at most one audio
    task. *)
Lemma on_audio_callback_effect (w : world) (fd : MIoTCameraFrameData)
    (d : MIoTMediaDecoder) :
  frame_interval (fst (_on_audio_callback w fd d)) = frame_interval d /\
  last_jpeg_ts (fst (_on_audio_callback w fd d)) = last_jpeg_ts d /\
  (scheduled (fst (_on_audio_callback w fd d)) = scheduled d \/
   exists pcm,
     scheduled (fst (_on_audio_callback w fd d))
       = scheduled d ++ [AudioTask pcm (timestamp fd) (channel fd)]).
Proof.
  destruct (decode_audio_packet_frame w fd d) as (Hiv & Hlast & Hsch & _).
  destruct (on_audio_callback_cases w fd d) as [[e E] | [pcm E]]; rewrite E; simpl.
  - auto.
  - split; [exact Hiv | split; [exact Hlast |]].
    right. exists pcm. now rewrite Hsch.
Qed.

(** One handler call either leaves the gate's timestamp and the number of
    video tasks as they were, or it found the gate open and moved the
    timestamp to the clock reading of the call. *)
Lemma handle_gate (h : handled) (d : MIoTMediaDecoder) :
  frame_interval (handle h d) = frame_interval d /\
  ((last_jpeg_ts (handle h d) = last_jpeg_ts d /\
    video_tasks (handle h d) = video_tasks d) \/
   (last_jpeg_ts (handle h d) = clock_of h /\
    (frame_interval d <= clock_of h - last_jpeg_ts d)%Z)).
Proof.
  destruct h as [w fd | w fd]; simpl.
  - destruct (decode_video_packet_frame w fd d) as (Hiv & Hlast & Hsch).
    destruct (snd (decode_video_packet w fd d)) as [frames | e] eqn:Hdec.
    + rewrite (on_video_callback_decoded w fd d frames Hdec).
      set (d1 := fst (decode_video_packet w fd d)) in *.
      assert (video_tasks d1 = video_tasks d) as Hvt
        by (unfold video_tasks; now rewrite Hsch).
      destruct (Z.leb_spec (frame_interval d1) (w_now w - last_jpeg_ts d1)) as [Hopen | Hshut].
      * destruct frames as [| frame rest].
        { rewrite rate_gate_no_frame by exact Hopen. simpl.
          split; [exact Hiv |]. right. split; [reflexivity | lia]. }
        destruct (w_jpeg w frame) as [jpeg |] eqn:Hj.
        { destruct (w_call_soon w) eqn:Hc.
          - rewrite (rate_gate_forward w fd d1 frame rest jpeg Hopen Hj Hc). simpl.
            split; [exact Hiv |]. right. split; [reflexivity | lia].
          - destruct (rate_gate_failed w fd d1 frame rest Hopen (or_intror Hc)) as [e E].
            rewrite E. simpl. split; [exact Hiv |]. left. split; [exact Hlast | exact Hvt]. }
        destruct (rate_gate_failed w fd d1 frame rest Hopen (or_introl Hj)) as [e E].
        rewrite E. simpl. split; [exact Hiv |]. left. split; [exact Hlast | exact Hvt].
      * rewrite rate_gate_closed by exact Hshut. simpl.
        split; [exact Hiv |]. left. split; [exact Hlast | exact Hvt].
    + rewrite (on_video_callback_raised w fd d e Hdec). simpl.
      split; [exact Hiv |]. left. split; [exact Hlast |].
      unfold video_tasks. now rewrite Hsch.
  - destruct (on_audio_callback_effect w fd d) as (Hiv & Hlast & [Hsch | [pcm Hsch]]).
    + split; [exact Hiv |]. left. split; [exact Hlast |].
      unfold video_tasks. now rewrite Hsch.
    + split; [exact Hiv |]. left. split; [exact Hlast |].
      unfold video_tasks. rewrite Hsch. now rewrite filter_video_snoc_audio.
Qed.

(** With a non-negative interval the timestamp never moves back, every later
    emission lies an interval after it, and emissions are an interval apart
    from each other. *)
Lemma emission_times_spaced_nonneg (hs : list handled) (d : MIoTMediaDecoder) :
  (0 <= frame_interval d)%Z ->
  Forall (fun t => frame_interval d <= t - last_jpeg_ts d)%Z (emission_times d hs) /\
  ForallOrdPairs (fun t1 t2 => frame_interval d <= t2 - t1)%Z (emission_times d hs).
Proof.
  revert d. induction hs as [| h hs IH]; intros d Hiv; simpl.
  - split; constructor.
  - destruct (handle_gate h d) as (Hiv' & Hstep).
    destruct (IH (handle h d)) as (Hafter & Hpairs); [now rewrite Hiv' |].
    rewrite Hiv' in Hafter, Hpairs.
    destruct Hstep as [(Hlast & Hvt) | (Hlast & Hopen)].
    + rewrite Hvt, Nat.ltb_irrefl. simpl.
      rewrite Hlast in Hafter. split; assumption.
    + rewrite Hlast in Hafter.
      assert (Forall (fun t => frame_interval d <= t - last_jpeg_ts d)%Z
                (emission_times (handle h d) hs)) as Hafter'.
      { eapply Forall_impl; [| exact Hafter]. simpl. intros t Ht. lia. }
      destruct (video_tasks d <? video_tasks (handle h d)); simpl.
      * split; constructor; assumption.
      * split; assumption.
Qed.

Lemma nondecreasing_cons (t : Z) (ts : list Z) :
  nondecreasing (t :: ts) = true ->
  Forall (fun u => t <= u)%Z ts /\ nondecreasing ts = true.
Proof.
  simpl. intros H. apply andb_prop in H. destruct H as [Hall Hrest].
  split; [| exact Hrest].
  apply Forall_forall. intros u Hu.
  rewrite forallb_forall in Hall. apply Z.leb_le. now apply Hall.
Qed.

(** Emission times are clock readings of the run, in the order of the run. *)
Lemma emission_times_clock (hs : list handled) (d : MIoTMediaDecoder) :
  nondecreasing (map clock_of hs) = true ->
  Forall (fun t => In t (map clock_of hs)) (emission_times d hs) /\
  ForallOrdPairs Z.le (emission_times d hs).
Proof.
  revert d. induction hs as [| h hs IH]; intros d Hmono.
  - split; constructor.
  - change (map clock_of (h :: hs)) with (clock_of h :: map clock_of hs) in *.
    apply nondecreasing_cons in Hmono. destruct Hmono as [Hle Hrest].
    destruct (IH (handle h d) Hrest) as (Hin & Hpairs).
    simpl emission_times.
    assert (Forall (fun t => In t (clock_of h :: map clock_of hs))
              (emission_times (handle h d) hs)) as Hin'.
    { eapply Forall_impl; [| exact Hin]. intros t Ht. now right. }
    destruct (video_tasks d <? video_tasks (handle h d)); simpl.
    + split.
      * constructor; [now left | exact Hin'].
      * constructor; [| exact Hpairs].
        eapply Forall_impl; [| exact Hin]. intros t Ht.
        rewrite Forall_forall in Hle. now apply Hle.
    + split; assumption.
Qed.

Lemma ordered_pairs_nth {A : Type} (R : A -> A -> Prop) (l : list A) :
  ForallOrdPairs R l ->
  forall i j a b, i < j -> nth_error l i = Some a -> nth_error l j = Some b -> R a b.
Proof.
  induction 1 as [| x l Hx Hl IH]; intros i j a b Hij Hi Hj.
  - destruct i; discriminate.
  - destruct j as [| j]; [lia |].
    destruct i as [| i]; simpl in *.
    + injection Hi as <-. rewrite Forall_forall in Hx.
      apply Hx. eapply nth_error_In; eassumption.
    + apply (IH i j); auto. lia.
Qed.

(** C4: over any run of handled records (video and audio, whatever each
    decode gives), any two calls that forwarded a video payload have clock
    readings at least [frame_interval] apart, the earlier one first; in
    particular each forward comes at least [frame_interval] after the
    previous one.  The clock is taken not to run backwards, which is only
    needed when the configured interval is negative. *)
Theorem video_emissions_spaced (hs : list handled) (d : MIoTMediaDecoder) :
  (0 <= frame_interval d)%Z \/ nondecreasing (map clock_of hs) = true ->
  spaced (frame_interval d) (emission_times d hs).
Proof.
  intros Hyp. unfold spaced.
  destruct (Z.le_gt_cases 0 (frame_interval d)) as [Hnn | Hneg].
  - destruct (emission_times_spaced_nonneg hs d Hnn) as (_ & Hpairs).
    intros i j t1 t2. apply (ordered_pairs_nth _ _ Hpairs).
  - destruct Hyp as [Hnn | Hmono]; [lia |].
    destruct (emission_times_clock hs d Hmono) as (_ & Hpairs).
    intros i j t1 t2 Hij Hi Hj.
    pose proof (ordered_pairs_nth _ _ Hpairs i j t1 t2 Hij Hi Hj). lia.
Qed.

Lemma video_emissions_spaced_witness :
  emission_times (new_decoder 1000 false false) scenario_C = [5000%Z] /\
  spaced (frame_interval (new_decoder 1000 false false))
         (emission_times (new_decoder 1000 false false) scenario_C).
Proof.
  split; [reflexivity |].
  apply (video_emissions_spaced scenario_C (new_decoder 1000 false false)).
  left. simpl. lia.
Defined.

(** Scenario C forwards one payload, the first record's. *)
Example scenario_C_one_payload :
  scheduled (fold_left (fun d h => handle h d) scenario_C (new_decoder 1000 false false))
  = [VideoTask [Byte.xff] 0 0].
Proof. reflexivity. Qed.

(** ** The audio path *)

Lemma fold_left_app_concat (chunks : list bytes) (acc : bytes) :
  fold_left (fun a rs => a ++ rs) chunks acc = acc ++ concat chunks.
Proof.
  revert acc. induction chunks as [| c chunks IH]; intros acc; simpl.
  - now rewrite app_nil_r.
  - rewrite IH. now rewrite app_assoc.
Qed.

Lemma resample_frames_ok (w : world) (frames : list AudioFrame) (acc : bytes) :
  (forall frame, In frame frames -> w_resample w frame <> None) ->
  resample_frames true w frames acc
  = Returned (acc ++ concat (flat_map (resampled w) frames)).
Proof.
  revert acc. induction frames as [| frame frames IH]; intros acc Hok; simpl.
  - now rewrite app_nil_r.
  - unfold resampled at 1.
    destruct (w_resample w frame) as [rs_frames |] eqn:Hrs.
    + rewrite IH by (intros f Hf; apply Hok; now right).
      rewrite fold_left_app_concat, concat_app. now rewrite app_assoc.
    + exfalso. apply (Hok frame); [now left | exact Hrs].
Qed.

(** A decode stage that returned leaves a resampler behind, provided the
    decoder was unbound before or a resampler existed already. *)
Lemma decode_audio_packet_resampler (w : world) (fd : MIoTCameraFrameData)
    (d : MIoTMediaDecoder) (frames : list AudioFrame) :
  snd (decode_audio_packet w fd d) = Returned frames ->
  audio_decoder d = None \/ resampler d = true ->
  resampler (fst (decode_audio_packet w fd d)) = true.
Proof.
  destruct d as [run iv hw hwa acb q vd ad rs last sch lg]. run_py.
  intros Hdec Hrs.
  destruct ad as [c |]; simpl in *.
  - destruct Hrs as [Hnone | Hrs]; [discriminate |].
    destruct (w_audio_decode w); simpl in *; exact Hrs.
  - destruct (codec_id fd); simpl in *;
      destruct (w_create w); simpl in *;
      destruct (w_audio_decode w); simpl in *; congruence.
Qed.

(** C9 (as the code has it): on a decoder that has its audio callback, for
    an audio record whose decode stage returns [frames] (the decoder is
    bound or gets bound and [decode] does not raise), whose frames all
    resample, and whose task the main loop accepts, the handler schedules
    exactly one audio task; its payload is the concatenation, in order, of
    all resampled buffers of all frames, which is the empty byte string when
    there are no frames.  Neither the clock nor [frame_interval] nor
    [last_jpeg_ts] plays a part. *)
Theorem audio_forwarded_unthrottled (w : world) (fd : MIoTCameraFrameData)
    (d : MIoTMediaDecoder) (frames : list AudioFrame) :
  snd (decode_audio_packet w fd d) = Returned frames ->
  audio_decoder d = None \/ resampler d = true ->
  (forall frame, In frame frames -> w_resample w frame <> None) ->
  audio_callback d = true ->
  w_call_soon w = true ->
  snd (_on_audio_callback w fd d) = Returned tt /\
  scheduled (fst (_on_audio_callback w fd d))
    = scheduled d ++ [AudioTask (concat (flat_map (resampled w) frames))
                                (timestamp fd) (channel fd)] /\
  (frames = [] ->
   scheduled (fst (_on_audio_callback w fd d))
     = scheduled d ++ [AudioTask [] (timestamp fd) (channel fd)]).
Proof.
  intros Hdec Hrs Hok Hcb Hsoon.
  pose proof (decode_audio_packet_resampler w fd d frames Hdec Hrs) as Hrs1.
  destruct (decode_audio_packet_frame w fd d) as (_ & _ & Hsch & Hcb1).
  assert (_on_audio_callback w fd d
          = (add_task (AudioTask (concat (flat_map (resampled w) frames))
                                 (timestamp fd) (channel fd))
               (fst (decode_audio_packet w fd d)), Returned tt)) as E.
  { unfold _on_audio_callback, bind, get.
    destruct (decode_audio_packet w fd d) as [d1 o]. simpl in *. subst o.
    rewrite Hrs1, (resample_frames_ok w frames [] Hok). simpl.
    rewrite Hcb1, Hcb. simpl.
    unfold call_soon_threadsafe, modify. now rewrite Hsoon. }
  rewrite E. simpl. rewrite Hsch.
  repeat split. intros ->. reflexivity.
Qed.

Lemma audio_forwarded_unthrottled_witness :
  snd (decode_audio_packet (good_world 5) (opus_frame 40) (new_decoder 1000 false false))
    = Returned [1] /\
  scheduled (fst (_on_audio_callback (good_world 5) (opus_frame 40)
                    (new_decoder 1000 false false)))
    = [AudioTask [Byte.x01; Byte.x02] 40 0].
Proof.
  split; [reflexivity |].
  destruct (audio_forwarded_unthrottled (good_world 5) (opus_frame 40)
              (new_decoder 1000 false false) [1]) as (_ & H & _).
  - reflexivity.
  - left. reflexivity.
  - intros frame _. simpl. discriminate.
  - reflexivity.
  - reflexivity.
  - exact H.
Defined.

(** Zero frames still give a task, with an empty payload, however recent the
    last JPEG was. *)
Example audio_empty_payload :
  scheduled (fst (_on_audio_callback (no_frame_world 5) (opus_frame 40)
                    (bound_decoder 1000 4)))
  = [AudioTask [] 40 0].
Proof. reflexivity. Qed.

(** A first audio record whose codec is not OPUS binds no decoder: the decode
    is attempted on None, raises, and nothing is scheduled. *)
Example audio_unsupported_codec :
  _on_audio_callback (good_world 5) (mkFrame (CODEC_OTHER 1027) FRAME_P [] 40 0)
    (new_decoder 1000 false false)
  = (add_log (InfoAudioDecoderCreated (CODEC_OTHER 1027))
       (set_resampler true (new_decoder 1000 false false)),
     Raised AttributeError).
Proof. reflexivity. Qed.

(** C9 as stated fails for records the worker does handle: a first audio
    record whose codec is not OPUS, and an OPUS record on a decoder built
    with audio disabled; either way the handler raises and no task is
    scheduled. *)
Lemma audio_record_not_forwarded :
  snd (_on_audio_callback (good_world 5) (mkFrame (CODEC_OTHER 1027) FRAME_P [] 40 0)
         (new_decoder 1000 false false)) = Raised AttributeError /\
  scheduled (fst (_on_audio_callback (good_world 5)
                    (mkFrame (CODEC_OTHER 1027) FRAME_P [] 40 0)
                    (new_decoder 1000 false false))) = [] /\
  snd (_on_audio_callback (good_world 5) (opus_frame 40) decoder_without_audio)
    = Raised AttributeError /\
  scheduled (fst (_on_audio_callback (good_world 5) (opus_frame 40)
                    decoder_without_audio)) = [].
Proof. repeat split. Qed.

(** ** A first video record with an unsupported codec *)

Lemma on_video_callback_unsupported (w : world) (fd : MIoTCameraFrameData)
    (d : MIoTMediaDecoder) :
  video_decoder d = None ->
  codec_id fd <> VIDEO_H264 -> codec_id fd <> VIDEO_H265 ->
  _on_video_callback w fd d
  = (add_log (InfoVideoDecoderCreated (codec_id fd)) d, Raised AttributeError).
Proof.
  intros Hvd H4 H5.
  destruct d as [run iv hw hwa acb q vd ad rs last sch lg]. simpl in Hvd. subst vd.
  run_py. destruct (codec_id fd); simpl; try reflexivity; congruence.
Qed.

(** An unbound decoder binds on a record with a supported codec as soon as
    [create] succeeds. *)
Lemma on_video_callback_binds (w : world) (fd : MIoTCameraFrameData)
    (d : MIoTMediaDecoder) :
  video_decoder d = None -> w_create w = true ->
  (codec_id fd = VIDEO_H264 ->
   video_decoder (fst (_on_video_callback w fd d)) = Some h264) /\
  (codec_id fd = VIDEO_H265 ->
   video_decoder (fst (_on_video_callback w fd d)) = Some hevc).
Proof.
  intros Hvd Hcreate.
  destruct d as [run iv hw hwa acb q vd ad rs last sch lg]. simpl in Hvd. subst vd.
  split; intros Hcodec; run_py; rewrite Hcodec, Hcreate; simpl;
    destruct (hw && hwa); simpl;
    destruct (w_hw_create w); simpl;
    destruct (w_video_decode w) as [[| frame frames] |]; simpl;
    try reflexivity;
    destruct (iv <=? w_now w - last)%Z; simpl; try reflexivity;
    destruct (w_jpeg w frame); simpl; try reflexivity;
    destruct (w_call_soon w); reflexivity.
Qed.

(** C10: let the decoder be unbound and the record at the front of the video
    lane carry a codec that is neither H264 nor H265.  Handling it raises
    AttributeError (decode on None) and binds nothing.  The pass of the run
    loop that takes it logs the error, schedules nothing, and ends in
    [break] exactly when the event loop is closed; otherwise the loop goes
    on with the next pass.  The decoder is still unbound afterwards, and a
    later record with codec H264 or H265 binds it when [create] succeeds. *)
Theorem unsupported_video_codec (w : world) (fd : MIoTCameraFrameData)
    (rest : list MIoTCameraFrameData) (d : MIoTMediaDecoder) :
  video_decoder d = None ->
  codec_id fd <> VIDEO_H264 -> codec_id fd <> VIDEO_H265 ->
  cond (queue d) = true -> video_buffer (queue d) = fd :: rest ->
  snd (_on_video_callback w fd d) = Raised AttributeError /\
  video_decoder (fst (_on_video_callback w fd d)) = None /\
  snd (run_iteration w d) = negb (w_is_closed w) /\
  log (fst (run_iteration w d))
    = log d ++ [InfoVideoDecoderCreated (codec_id fd)]
            ++ [ErrorFrameDataHandle AttributeError] /\
  scheduled (fst (run_iteration w d)) = scheduled d /\
  video_buffer (queue (fst (run_iteration w d))) = rest /\
  video_decoder (fst (run_iteration w d)) = None /\
  (forall ws, running d = true ->
     run_loop (w :: ws) d
     = if w_is_closed w
       then add_log InfoDecoderStopped (fst (run_iteration w d))
       else run_loop ws (fst (run_iteration w d))) /\
  (forall w2 fd2, w_create w2 = true ->
     (codec_id fd2 = VIDEO_H264 ->
      video_decoder (fst (_on_video_callback w2 fd2 (fst (run_iteration w d))))
        = Some h264) /\
     (codec_id fd2 = VIDEO_H265 ->
      video_decoder (fst (_on_video_callback w2 fd2 (fst (run_iteration w d))))
        = Some hevc)).
Proof.
  intros Hvd H4 H5 Hcond Hlane.
  pose proof (on_video_callback_unsupported w fd d Hvd H4 H5) as Hcb.
  assert (run_iteration w d
          = (add_log (ErrorFrameDataHandle AttributeError)
               (set_queue (set_video (queue d) rest)
                  (add_log (InfoVideoDecoderCreated (codec_id fd)) d)),
             negb (w_is_closed w))) as Hrun.
  { unfold run_iteration.
    rewrite (step_video_front _ (_on_video_callback w) (_on_audio_callback w)
               default_timeout_ms (queue d) d fd rest Hcond Hlane).
    rewrite Hcb. reflexivity. }
  rewrite Hcb, Hrun. simpl.
  split; [reflexivity |]. split; [exact Hvd |]. split; [reflexivity |].
  split; [now rewrite <- app_assoc |].
  split; [reflexivity |]. split; [reflexivity |]. split; [exact Hvd |].
  split.
  - intros ws Hrunning. rewrite Hrunning, Hrun.
    now destruct (w_is_closed w).
  - intros w2 fd2 Hcreate.
    apply on_video_callback_binds; [exact Hvd | exact Hcreate].
Qed.

Lemma unsupported_video_codec_witness :
  video_decoder g711_then_h264 = None /\
  snd (_on_video_callback (good_world 5000) (mkFrame (CODEC_OTHER 1027) FRAME_I [] 1 0)
         g711_then_h264) = Raised AttributeError /\
  video_decoder (run_loop [good_world 5000; good_world 5001] g711_then_h264)
    = Some h264.
Proof.
  split; [reflexivity |].
  split; [| reflexivity].
  apply (unsupported_video_codec (good_world 5000)
           (mkFrame (CODEC_OTHER 1027) FRAME_I [] 1 0)
           [mkFrame VIDEO_H264 FRAME_I [] 2 0] g711_then_h264);
    try reflexivity; simpl; discriminate.
Defined.

(** * Further properties of the ring buffer *)

Lemma deque_append_last_n {A : Type} (m : nat) (d : list A) (x : A) :
  length d <= m -> deque_append m d x = last_n m (d ++ [x]).
Proof.
  intros Hd. unfold deque_append, last_n.
  rewrite length_app. simpl.
  destruct (Nat.ltb_spec m (length d + 1)) as [Hfull | Hroom].
  - replace (length d + 1 - m) with 1 by lia.
    destruct d; reflexivity.
  - now replace (length d + 1 - m) with 0 by lia.
Qed.

Lemma last_n_short {A : Type} (n : nat) (l : list A) :
  length l <= n -> last_n n l = l.
Proof.
  intros H. unfold last_n. now replace (length l - n) with 0 by lia.
Qed.

Lemma last_n_length {A : Type} (n : nat) (l : list A) :
  length (last_n n l) = Nat.min n (length l).
Proof. unfold last_n. rewrite length_skipn. lia. Qed.

(** Taking the last [n] may be done early: what was cut off earlier would be
    cut off anyway. *)
Lemma last_n_app_last_n {A : Type} (n : nat) (x l : list A) :
  last_n n (last_n n x ++ l) = last_n n (x ++ l).
Proof.
  destruct (Nat.le_gt_cases (length x) n) as [Hshort | Hlong].
  - now rewrite (last_n_short n x Hshort).
  - unfold last_n at 1 3.
    rewrite !length_app, last_n_length.
    replace (Nat.min n (length x)) with n by lia.
    replace (n + length l - n) with (length l) by lia.
    unfold last_n.
    rewrite !skipn_app, !length_skipn.
    replace (length l - (length x - (length x - n))) with (length l - n) by lia.
    replace (length x + length l - n - length x) with (length l - n) by lia.
    rewrite skipn_skipn.
    replace (length l + (length x - n)) with (length x + length l - n) by lia.
    reflexivity.
Qed.

(** X1: on a live buffer whose audio lane is within capacity, [put_audio]
    returns normally, notifies once, leaves the video lane alone, and the
    audio lane becomes the last N records of the old lane followed by the
    new record: with room the record is appended, on a full lane the oldest
    record gives way, and with capacity 0 nothing is kept. *)
Theorem put_audio_drop_oldest (b : MIoTMediaRingBuffer) (item : MIoTCameraFrameData) :
  cond b = true -> length (audio_buffer b) <= maxlen b ->
  snd (put_audio b item) = Returned tt /\
  audio_buffer (fst (put_audio b item)) = last_n (maxlen b) (audio_buffer b ++ [item]) /\
  (length (audio_buffer b) = maxlen b -> 0 < maxlen b ->
   audio_buffer (fst (put_audio b item)) = tl (audio_buffer b) ++ [item]) /\
  video_buffer (fst (put_audio b item)) = video_buffer b /\
  events (fst (put_audio b item)) = events b ++ [Notify].
Proof.
  intros Hc Hlen. unfold put_audio. rewrite Hc. simpl.
  rewrite (deque_append_last_n _ _ _ Hlen).
  repeat split.
  intros Hfull Hpos. unfold last_n. rewrite length_app. simpl.
  replace (length (audio_buffer b) + 1 - maxlen b) with 1 by lia.
  destruct (audio_buffer b); [simpl in Hfull; lia | reflexivity].
Qed.

Lemma put_audio_drop_oldest_witness :
  cond (mkRB 2 [] [opus_frame 1; opus_frame 2] true []) = true /\
  audio_buffer (fst (put_audio (mkRB 2 [] [opus_frame 1; opus_frame 2] true [])
                       (opus_frame 3)))
    = [opus_frame 2; opus_frame 3].
Proof.
  split; [reflexivity |].
  destruct (put_audio_drop_oldest (mkRB 2 [] [opus_frame 1; opus_frame 2] true [])
              (opus_frame 3)) as (_ & _ & H & _).
  - reflexivity.
  - simpl. lia.
  - apply H; [reflexivity | simpl; lia].
Defined.

Lemma put_all_audio_window (n : nat) (l : list MIoTCameraFrameData)
    (b : MIoTMediaRingBuffer) :
  cond b = true -> maxlen b = n -> length (audio_buffer b) <= n ->
  audio_buffer (put_all b (map PutAudio l)) = last_n n (audio_buffer b ++ l) /\
  video_buffer (put_all b (map PutAudio l)) = video_buffer b.
Proof.
  revert b. induction l as [| f l IH]; intros b Hc Hn Hlen.
  - simpl. rewrite app_nil_r. split; [| reflexivity].
    symmetry. now apply last_n_short.
  - unfold put_all. simpl. fold (put_all (fst (put_audio b f)) (map PutAudio l)).
    assert (put_audio b f
            = (emit (set_audio b (last_n n (audio_buffer b ++ [f]))) Notify, Returned tt))
      as E.
    { unfold put_audio. rewrite Hc. simpl.
      rewrite deque_append_last_n by lia. now rewrite Hn. }
    rewrite E. simpl.
    destruct (IH (emit (set_audio b (last_n n (audio_buffer b ++ [f]))) Notify))
      as (Ha & Hv); auto.
    { simpl. rewrite last_n_length. lia. }
    simpl in Ha, Hv. rewrite Ha, Hv. split; [| reflexivity].
    rewrite last_n_app_last_n. now rewrite <- app_assoc.
Qed.

(** X2: whatever audio records are pushed into a fresh buffer of capacity N,
    the audio lane ends up holding the last N of them in push order (all of
    them when there are at most N), and the video lane stays empty.  The
    audio lane is a sliding window, unlike the video lane of Scenario A. *)
Theorem audio_lane_keeps_newest (n : nat) (l : list MIoTCameraFrameData) :
  audio_buffer (put_all (init n) (map PutAudio l)) = last_n n l /\
  video_buffer (put_all (init n) (map PutAudio l)) = [].
Proof.
  apply (put_all_audio_window n l (init n)); [reflexivity | reflexivity |].
  simpl. lia.
Qed.

Lemma videos_audios_length (calls : list put_call) :
  length calls = length (videos_of calls) + length (audios_of calls).
Proof.
  unfold videos_of, audios_of.
  induction calls as [| [f | f] calls IH]; simpl; lia.
Qed.

Lemma put_video_with_room (b : MIoTMediaRingBuffer) (item : MIoTCameraFrameData) :
  cond b = true -> length (video_buffer b) < maxlen b ->
  put_video b item
    = (emit (set_video b (video_buffer b ++ [item])) Notify, Returned tt).
Proof.
  intros Hc Hroom. unfold put_video. rewrite Hc. simpl.
  destruct (Nat.leb_spec (maxlen b) (length (video_buffer b))); [lia |].
  now rewrite deque_append_room.
Qed.

Lemma put_audio_with_room (b : MIoTMediaRingBuffer) (item : MIoTCameraFrameData) :
  cond b = true -> length (audio_buffer b) < maxlen b ->
  put_audio b item
    = (emit (set_audio b (audio_buffer b ++ [item])) Notify, Returned tt).
Proof.
  intros Hc Hroom. unfold put_audio. rewrite Hc. simpl.
  now rewrite deque_append_room.
Qed.

(** While there is room, every record is stored at the back of its lane. *)
Lemma put_all_with_room (calls : list put_call) (b : MIoTMediaRingBuffer) :
  cond b = true ->
  length (video_buffer b) + length (videos_of calls) <= maxlen b ->
  length (audio_buffer b) + length (audios_of calls) <= maxlen b ->
  video_buffer (put_all b calls) = video_buffer b ++ videos_of calls /\
  audio_buffer (put_all b calls) = audio_buffer b ++ audios_of calls /\
  cond (put_all b calls) = true.
Proof.
  revert b. induction calls as [| [f | f] calls IH]; intros b Hc Hv Ha.
  - simpl. now rewrite !app_nil_r.
  - unfold put_all. simpl fold_left. fold (put_all (fst (put_video b f)) calls).
    change (videos_of (PutVideo f :: calls)) with (f :: videos_of calls) in *.
    change (audios_of (PutVideo f :: calls)) with (audios_of calls) in *.
    simpl in Hv.
    rewrite put_video_with_room by (auto; lia). simpl.
    destruct (IH (emit (set_video b (video_buffer b ++ [f])) Notify)) as (Ev & Ea & Ec);
      simpl; auto.
    { rewrite length_app. simpl. lia. }
    simpl in Ev, Ea. rewrite Ev, Ea, Ec. now rewrite <- app_assoc.
  - unfold put_all. simpl fold_left. fold (put_all (fst (put_audio b f)) calls).
    change (audios_of (PutAudio f :: calls)) with (f :: audios_of calls) in *.
    change (videos_of (PutAudio f :: calls)) with (videos_of calls) in *.
    simpl in Ha.
    rewrite put_audio_with_room by (auto; lia). simpl.
    destruct (IH (emit (set_audio b (audio_buffer b ++ [f])) Notify)) as (Ev & Ea & Ec);
      simpl; auto.
    { rewrite length_app. simpl. lia. }
    simpl in Ev, Ea. rewrite Ev, Ea, Ec. now rewrite <- app_assoc.
Qed.

(** Draining a live buffer hands out the whole video lane, then the whole
    audio lane, each front first. *)
Lemma drain_audio (a : list MIoTCameraFrameData) (b : MIoTMediaRingBuffer)
    (s : list taken) :
  cond b = true -> video_buffer b = [] -> audio_buffer b = a ->
  snd (drain (length a) b s) = s ++ map TakeAudio a /\
  video_buffer (fst (drain (length a) b s)) = [] /\
  audio_buffer (fst (drain (length a) b s)) = [].
Proof.
  revert b s. induction a as [| f a IH]; intros b s Hc Hv Ha.
  - simpl. now rewrite app_nil_r.
  - simpl drain.
    rewrite (step_audio_front _ note_video note_audio default_timeout_ms b s f a Hc Hv Ha).
    simpl. destruct (IH (set_audio b a) (s ++ [TakeAudio f])) as (Es & Ev & Ea); auto.
    rewrite Es, Ev, Ea. now rewrite <- app_assoc.
Qed.

Lemma drain_video_then_audio (v a : list MIoTCameraFrameData)
    (b : MIoTMediaRingBuffer) (s : list taken) :
  cond b = true -> video_buffer b = v -> audio_buffer b = a ->
  snd (drain (length v + length a) b s) = s ++ map TakeVideo v ++ map TakeAudio a /\
  video_buffer (fst (drain (length v + length a) b s)) = [] /\
  audio_buffer (fst (drain (length v + length a) b s)) = [].
Proof.
  revert b s. induction v as [| f v IH]; intros b s Hc Hv Ha.
  - simpl. now apply drain_audio.
  - simpl drain.
    rewrite (step_video_front _ note_video note_audio default_timeout_ms b s f v Hc Hv).
    simpl. destruct (IH (set_video b v) (s ++ [TakeVideo f])) as (Es & Ev & Ea); auto.
    rewrite Es, Ev, Ea. now rewrite <- app_assoc.
Qed.

(** X3: as long as neither lane overflows, whatever the producers pushed
    into a fresh buffer comes out of as many [step] calls as there were
    pushes: first every video record in push order, then every audio record
    in push order, each handed to the handler of its kind; both lanes are
    empty afterwards. *)
Theorem push_then_drain (n : nat) (calls : list put_call) :
  length (videos_of calls) <= n -> length (audios_of calls) <= n ->
  snd (drain (length calls) (put_all (init n) calls) [])
    = map TakeVideo (videos_of calls) ++ map TakeAudio (audios_of calls) /\
  video_buffer (fst (drain (length calls) (put_all (init n) calls) [])) = [] /\
  audio_buffer (fst (drain (length calls) (put_all (init n) calls) [])) = [].
Proof.
  intros Hv Ha.
  destruct (put_all_with_room calls (init n)) as (Ev & Ea & Ec); auto.
  rewrite videos_audios_length.
  apply (drain_video_then_audio (videos_of calls) (audios_of calls)
           (put_all (init n) calls) []); auto.
Qed.

Lemma push_then_drain_witness :
  length (videos_of [PutAudio (opus_frame 1); PutVideo (p_frame 2); PutVideo (i_frame 3)]) <= 2 /\
  snd (drain 3 (put_all (init 2)
                  [PutAudio (opus_frame 1); PutVideo (p_frame 2); PutVideo (i_frame 3)]) [])
    = [TakeVideo (p_frame 2); TakeVideo (i_frame 3); TakeAudio (opus_frame 1)].
Proof.
  split; [simpl; lia |].
  apply (push_then_drain 2
           [PutAudio (opus_frame 1); PutVideo (p_frame 2); PutVideo (i_frame 3)]);
    simpl; lia.
Defined.

(** X4: on a live buffer of capacity at least 1 whose video lane is within
    capacity, [put_video] never refuses a keyframe: the call returns
    normally and the keyframe is the newest record of the lane. *)
Theorem keyframe_always_stored (b : MIoTMediaRingBuffer) (item : MIoTCameraFrameData) :
  cond b = true -> 0 < maxlen b -> length (video_buffer b) <= maxlen b ->
  keyframe item ->
  snd (put_video b item) = Returned tt /\
  exists kept, video_buffer (fst (put_video b item)) = kept ++ [item].
Proof.
  intros Hc Hpos Hlen Hitem.
  destruct (Nat.eq_dec (length (video_buffer b)) (maxlen b)) as [Hfull | Hroom].
  - destruct (first_non_keyframe_split (video_buffer b))
      as [Hall | (pre & x & post & Hsplit & Hpre & Hx)].
    + destruct (video_buffer b) as [| oldest rest] eqn:Hlane; [simpl in Hfull; lia |].
      rewrite <- Hlane in Hall, Hfull.
      rewrite (put_video_full_I_oldest b item oldest rest Hc Hfull Hitem Hlane Hall).
      simpl. split; [reflexivity | now exists rest].
    + rewrite (put_video_full_I_evicts b item pre post x Hc Hfull Hitem Hsplit Hpre Hx).
      simpl. split; [reflexivity |]. exists (pre ++ post). now rewrite <- app_assoc.
  - rewrite put_video_with_room by (auto; lia). simpl.
    split; [reflexivity | now exists (video_buffer b)].
Qed.

Lemma keyframe_always_stored_witness :
  cond full_of_keyframes = true /\
  exists kept,
    video_buffer (fst (put_video full_of_keyframes (i_frame 4))) = kept ++ [i_frame 4].
Proof.
  split; [reflexivity |].
  apply (keyframe_always_stored full_of_keyframes (i_frame 4));
    [reflexivity | simpl; lia | simpl; lia | reflexivity].
Defined.

Lemma put_all_within (calls : list put_call) (b : MIoTMediaRingBuffer) :
  within_capacity (maxlen b) b ->
  within_capacity (maxlen b) (put_all b calls) /\ maxlen (put_all b calls) = maxlen b.
Proof.
  revert b. induction calls as [| c calls IH]; intros b Hb.
  - auto.
  - unfold put_all. simpl. fold (put_all (fst (do_put b c)) calls).
    assert (maxlen (fst (do_put b c)) = maxlen b /\
            within_capacity (maxlen b) (fst (do_put b c))) as [Hn Hb'].
    { destruct c; simpl; [now apply put_video_within | now apply put_audio_within]. }
    rewrite <- Hn in Hb'. destruct (IH _ Hb') as (Hw & Hm).
    rewrite Hn in Hw. split; [exact Hw | congruence].
Qed.

Lemma keyframes_of_app (l1 l2 : list MIoTCameraFrameData) :
  length (filter is_I (l1 ++ l2)) = length (filter is_I l1) + length (filter is_I l2).
Proof. now rewrite filter_app, length_app. Qed.

Lemma keyframes_of_all (l : list MIoTCameraFrameData) :
  Forall keyframe l -> length (filter is_I l) = length l.
Proof.
  induction 1 as [| f l Hf Hl IH]; simpl; [reflexivity |].
  apply is_I_true in Hf. rewrite Hf. simpl. now rewrite IH.
Qed.

(** One producer call never lowers the number of keyframes in a video lane
    that is within capacity. *)
Lemma do_put_keeps_keyframes (b : MIoTMediaRingBuffer) (c : put_call) :
  length (video_buffer b) <= maxlen b ->
  keyframes_held b <= keyframes_held (fst (do_put b c)).
Proof.
  intros Hlen. unfold keyframes_held.
  destruct c as [item | item]; simpl.
  2: { unfold put_audio. destruct (cond b); simpl; lia. }
  destruct (cond b) eqn:Hc.
  2: { unfold put_video. rewrite Hc. simpl. lia. }
  destruct (Nat.eq_dec (length (video_buffer b)) (maxlen b)) as [Hfull | Hroom].
  - destruct (is_I item) eqn:Hitem.
    + apply is_I_true in Hitem.
      destruct (first_non_keyframe_split (video_buffer b))
        as [Hall | (pre & x & post & Hsplit & Hpre & Hx)].
      * destruct (video_buffer b) as [| oldest rest] eqn:Hlane.
        { unfold put_video. rewrite Hc, Hlane. simpl.
          rewrite <- Hfull. simpl.
          apply is_I_true in Hitem. rewrite Hitem. simpl. lia. }
        rewrite <- Hlane in Hall, Hfull.
        rewrite (put_video_full_I_oldest b item oldest rest Hc Hfull Hitem Hlane Hall).
        rewrite Hlane in Hall.
        inversion Hall as [| ? ? Hold Hrest]; subst.
        apply is_I_true in Hitem. apply is_I_true in Hold.
        simpl. rewrite Hold. simpl.
        rewrite keyframes_of_app. simpl. rewrite Hitem. simpl. lia.
      * rewrite (put_video_full_I_evicts b item pre post x Hc Hfull Hitem Hsplit Hpre Hx).
        simpl. rewrite Hsplit.
        apply is_I_true in Hitem. apply is_I_false in Hx.
        rewrite !keyframes_of_app. simpl. rewrite Hx, Hitem. simpl. lia.
    + apply is_I_false in Hitem.
      rewrite (put_video_full_drop b item Hc Hfull Hitem). simpl. lia.
  - rewrite put_video_with_room by (auto; lia). simpl.
    rewrite keyframes_of_app. lia.
Qed.

(** X5: starting from a fresh buffer of any capacity, no producer call ever
    lowers the number of keyframes held in the video lane: eviction takes a
    non-keyframe when there is one, and a keyframe only gives way to another
    keyframe. *)
Theorem keyframes_never_decrease (n : nat) (calls : list put_call) (c : put_call) :
  keyframes_held (put_all (init n) calls)
  <= keyframes_held (put_all (init n) (calls ++ [c])).
Proof.
  unfold put_all at 2. rewrite fold_left_app. simpl.
  fold (put_all (init n) calls).
  apply do_put_keeps_keyframes.
  destruct (put_all_within calls (init n)) as ((Hv & _) & Hm).
  - split; simpl; lia.
  - rewrite Hm. exact Hv.
Qed.

(** * Further properties of the decoder worker *)

(** Case analysis on the innermost tests of the goal, one after the other. *)
Ltac split_matches :=
  repeat match goal with
         | |- context [match ?x with _ => _ end] =>
             lazymatch x with
             | context [match _ with _ => _ end] => fail
             | _ => destruct x eqn:?; simpl in *
             end
         end.

(** What the video handler never touches, and what it never unbinds. *)
Lemma on_video_callback_keeps (w : world) (fd : MIoTCameraFrameData)
    (d : MIoTMediaDecoder) :
  running (fst (_on_video_callback w fd d)) = running d /\
  queue (fst (_on_video_callback w fd d)) = queue d /\
  audio_decoder (fst (_on_video_callback w fd d)) = audio_decoder d /\
  audio_callback (fst (_on_video_callback w fd d)) = audio_callback d /\
  (forall c, video_decoder d = Some c ->
             video_decoder (fst (_on_video_callback w fd d)) = Some c).
Proof.
  destruct d as [run iv hw hwa acb q vd ad rs last sch lg].
  repeat split; try (intros c Hc; simpl in Hc; subst vd);
    run_py; split_matches; reflexivity.
Qed.

Lemma on_audio_callback_keeps (w : world) (fd : MIoTCameraFrameData)
    (d : MIoTMediaDecoder) :
  running (fst (_on_audio_callback w fd d)) = running d /\
  queue (fst (_on_audio_callback w fd d)) = queue d /\
  video_decoder (fst (_on_audio_callback w fd d)) = video_decoder d /\
  audio_callback (fst (_on_audio_callback w fd d)) = audio_callback d /\
  (forall c, audio_decoder d = Some c ->
             audio_decoder (fst (_on_audio_callback w fd d)) = Some c).
Proof.
  destruct d as [run iv hw hwa acb q vd ad rs last sch lg].
  repeat split; try (intros c Hc; simpl in Hc; subst ad);
    run_py; split_matches; reflexivity.
Qed.

(** The video handler schedules nothing or one video task that carries the
    record's timestamp and channel. *)
Lemma on_video_callback_effect (w : world) (fd : MIoTCameraFrameData)
    (d : MIoTMediaDecoder) :
  scheduled (fst (_on_video_callback w fd d)) = scheduled d \/
  exists jpeg,
    scheduled (fst (_on_video_callback w fd d))
      = scheduled d ++ [VideoTask jpeg (timestamp fd) (channel fd)].
Proof.
  destruct (decode_video_packet_frame w fd d) as (Hiv & Hlast & Hsch).
  destruct (snd (decode_video_packet w fd d)) as [frames | e] eqn:Hdec.
  - rewrite (on_video_callback_decoded w fd d frames Hdec).
    set (d1 := fst (decode_video_packet w fd d)) in *.
    destruct (Z.leb_spec (frame_interval d1) (w_now w - last_jpeg_ts d1)) as [Hopen | Hshut].
    + destruct frames as [| frame rest].
      { rewrite rate_gate_no_frame by exact Hopen. simpl. now left. }
      destruct (w_jpeg w frame) as [jpeg |] eqn:Hj.
      { destruct (w_call_soon w) eqn:Hc.
        - rewrite (rate_gate_forward w fd d1 frame rest jpeg Hopen Hj Hc). simpl.
          right. exists jpeg. now rewrite Hsch.
        - destruct (rate_gate_failed w fd d1 frame rest Hopen (or_intror Hc)) as [e E].
          rewrite E. simpl. now left. }
      destruct (rate_gate_failed w fd d1 frame rest Hopen (or_introl Hj)) as [e E].
      rewrite E. simpl. now left.
    + rewrite rate_gate_closed by exact Hshut. simpl. now left.
  - rewrite (on_video_callback_raised w fd d e Hdec). simpl. now left.
Qed.

(** A pass of the run loop relates the decoder before and after by any
    relation that the handlers establish and that changes of the queue and
    of the log do not disturb. *)
Lemma run_iteration_rel (R : MIoTMediaDecoder -> MIoTMediaDecoder -> Prop)
    (w : world) (d : MIoTMediaDecoder) :
  R d d ->
  (forall q d', R d d' -> R d (set_queue q d')) ->
  (forall l d', R d d' -> R d (add_log l d')) ->
  (forall f, R d (fst (_on_video_callback w f d))) ->
  (forall f, R d (fst (_on_audio_callback w f d))) ->
  R d (fst (run_iteration w d)).
Proof.
  intros Hrefl Hq Hl Hv Ha. unfold run_iteration, step, step_get.
  destruct (cond (queue d)); simpl.
  - destruct (video_buffer (queue d)) as [| f rest].
    + destruct (audio_buffer (queue d)) as [| f rest]; simpl.
      * now apply Hq.
      * specialize (Ha f). destruct (_on_audio_callback w f d) as [d' [u | e]];
          simpl in *; auto.
    + specialize (Hv f). destruct (_on_video_callback w f d) as [d' [u | e]];
        simpl in *; auto.
  - auto.
Qed.

Lemma run_loop_invariant (P : MIoTMediaDecoder -> Prop) :
  (forall q d, P d -> P (set_queue q d)) ->
  (forall l d, P d -> P (add_log l d)) ->
  (forall w f d, P d -> P (fst (_on_video_callback w f d))) ->
  (forall w f d, P d -> P (fst (_on_audio_callback w f d))) ->
  forall ws d, P d -> P (run_loop ws d).
Proof.
  intros Hq Hl Hv Ha ws. induction ws as [| w ws IH]; intros d Hd; simpl.
  - exact Hd.
  - destruct (running d); [| now apply Hl].
    assert (P (fst (run_iteration w d))) as Hd'.
    { apply (run_iteration_rel (fun _ d' => P d')); auto. }
    destruct (run_iteration w d) as [d' [|]]; simpl in *; auto.
Qed.

(** X6: once a decoder is bound it stays bound to the same codec for as
    long as the worker runs, whatever records arrive (also records of a
    different codec) and whatever the decodes do: no pass of the run loop
    rebinds or unbinds the video decoder or the audio decoder. *)
Theorem decoders_never_rebound (ws : list world) (d : MIoTMediaDecoder) :
  (forall c, video_decoder d = Some c -> video_decoder (run_loop ws d) = Some c) /\
  (forall c, audio_decoder d = Some c -> audio_decoder (run_loop ws d) = Some c).
Proof.
  split; intros c Hc.
  - apply (run_loop_invariant (fun st => video_decoder st = Some c)); auto.
    + intros w f st Hst. now apply on_video_callback_keeps.
    + intros w f st Hst.
      destruct (on_audio_callback_keeps w f st) as (_ & _ & E & _). congruence.
  - apply (run_loop_invariant (fun st => audio_decoder st = Some c)); auto.
    + intros w f st Hst.
      destruct (on_video_callback_keeps w f st) as (_ & _ & E & _). congruence.
    + intros w f st Hst. now apply on_audio_callback_keeps.
Qed.

(** A decoder bound to HEVC stays bound to HEVC when an H.264 record arrives. *)
Example decoders_never_rebound_sample :
  video_decoder
    (run_loop [good_world 1; bad_jpeg_world 2]
       (set_queue (mkRB 20 [mkFrame VIDEO_H264 FRAME_I [] 1 0] [] true [])
          (bound_decoder 1000 0)))
  = Some hevc.
Proof. reflexivity. Qed.

(** X7: when the decode of a video record returned but less than
    [frame_interval] has passed since [last_jpeg_ts], the handler returns
    normally without converting or forwarding anything: the decoder is left
    as the decode stage left it, no task is scheduled and [last_jpeg_ts]
    keeps its value, however many frames the decode produced. *)
Theorem frames_between_ticks_discarded (w : world) (fd : MIoTCameraFrameData)
    (d : MIoTMediaDecoder) (frames : list VideoFrame) :
  snd (decode_video_packet w fd d) = Returned frames ->
  (w_now w - last_jpeg_ts d < frame_interval d)%Z ->
  _on_video_callback w fd d = (fst (decode_video_packet w fd d), Returned tt) /\
  scheduled (fst (_on_video_callback w fd d)) = scheduled d /\
  last_jpeg_ts (fst (_on_video_callback w fd d)) = last_jpeg_ts d.
Proof.
  intros Hdec Hshut.
  destruct (decode_video_packet_frame w fd d) as (Hiv & Hlast & Hsch).
  rewrite (on_video_callback_decoded w fd d frames Hdec).
  rewrite rate_gate_closed by (rewrite Hiv, Hlast; exact Hshut).
  simpl. auto.
Qed.

Lemma frames_between_ticks_discarded_witness :
  snd (decode_video_packet (good_world 1500) (p_frame 7) (bound_decoder 1000 1000))
    = Returned [1] /\
  _on_video_callback (good_world 1500) (p_frame 7) (bound_decoder 1000 1000)
    = (bound_decoder 1000 1000, Returned tt).
Proof.
  split; [reflexivity |].
  destruct (frames_between_ticks_discarded (good_world 1500) (p_frame 7)
              (bound_decoder 1000 1000) [1]) as (H & _).
  - reflexivity.
  - simpl. lia.
  - exact H.
Defined.

(** X8: of the frames one decode returns, only the first can reach the video
    callback: the handler does the same whether the decode returns
    [frame :: rest] or just [[frame]]. *)
Theorem only_first_frame_forwarded (w : world) (fd : MIoTCameraFrameData)
    (d : MIoTMediaDecoder) (frame : VideoFrame) (rest : list VideoFrame) :
  _on_video_callback (with_video_decode w (Some (frame :: rest))) fd d
  = _on_video_callback (with_video_decode w (Some [frame])) fd d.
Proof.
  destruct d as [run iv hw hwa acb q vd ad rs last sch lg].
  unfold with_video_decode. run_py. split_matches; reflexivity.
Qed.

(** X9: handling one record schedules at most one task, after the tasks
    scheduled before; the task is of the record's kind (a video record never
    produces an audio task, nor the other way round) and carries the
    record's timestamp and channel. *)
Theorem one_task_per_record (h : handled) (d : MIoTMediaDecoder) :
  scheduled (handle h d) = scheduled d \/
  exists payload,
    scheduled (handle h d)
    = scheduled d ++
      [match h with
       | HVideo _ fd => VideoTask payload (timestamp fd) (channel fd)
       | HAudio _ fd => AudioTask payload (timestamp fd) (channel fd)
       end].
Proof.
  destruct h as [w fd | w fd]; simpl.
  - apply on_video_callback_effect.
  - destruct (on_audio_callback_effect w fd d) as (_ & _ & H). exact H.
Qed.

Lemma run_iteration_schedules (w : world) (d : MIoTMediaDecoder) :
  scheduled (fst (run_iteration w d)) = scheduled d \/
  exists t, scheduled (fst (run_iteration w d)) = scheduled d ++ [t].
Proof.
  apply (run_iteration_rel
           (fun d0 d' => scheduled d' = scheduled d0 \/
                         exists t, scheduled d' = scheduled d0 ++ [t])); auto.
  - intros f. destruct (on_video_callback_effect w f d) as [H | [j H]]; eauto.
  - intros f. destruct (on_audio_callback_effect w f d) as (_ & _ & [H | [p H]]); eauto.
Qed.

(** X10: the run loop only ever appends to the list of scheduled tasks, at
    most one task per pass: after any number of passes the tasks scheduled
    before are still there, in the same order, followed by no more new
    tasks than there were passes. *)
Theorem run_loop_schedules_in_order (ws : list world) (d : MIoTMediaDecoder) :
  exists new,
    scheduled (run_loop ws d) = scheduled d ++ new /\ length new <= length ws.
Proof.
  revert d. induction ws as [| w ws IH]; intros d; simpl.
  - exists []. split; [now rewrite app_nil_r | simpl; lia].
  - destruct (running d).
    + pose proof (run_iteration_schedules w d) as Hstep.
      destruct (run_iteration w d) as [d' [|]]; simpl in *.
      * destruct (IH d') as (new & E & Hlen). rewrite E.
        destruct Hstep as [H | [t H]]; rewrite H.
        -- exists new. split; [reflexivity | lia].
        -- exists (t :: new). rewrite <- app_assoc. split; [reflexivity | simpl; lia].
      * destruct Hstep as [H | [t H]]; rewrite H.
        -- exists []. split; [now rewrite app_nil_r | simpl; lia].
        -- exists [t]. split; [reflexivity | simpl; lia].
    + exists []. simpl. split; [now rewrite app_nil_r | lia].
Qed.

Lemma run_iteration_running (w : world) (d : MIoTMediaDecoder) :
  running (fst (run_iteration w d)) = running d.
Proof.
  apply (run_iteration_rel (fun d0 d' => running d' = running d0)); auto.
  - intros f. now apply on_video_callback_keeps.
  - intros f. now apply on_audio_callback_keeps.
Qed.

Lemma run_iteration_break (w : world) (d : MIoTMediaDecoder) :
  snd (run_iteration w d) = false -> w_is_closed w = true.
Proof.
  unfold run_iteration.
  destruct (step (_on_video_callback w) (_on_audio_callback w) default_timeout_ms
              (queue d) d) as [[q' d'] [u | e]]; simpl.
  - discriminate.
  - now destruct (w_is_closed w).
Qed.

(** X11: no exception ends the worker while the event loop is open: a pass
    ends in [break] only if [is_closed()] holds, and when it holds in none
    of the worlds a running worker executes every pass and is still running
    afterwards. *)
Theorem worker_survives_exceptions (ws : list world) (d : MIoTMediaDecoder) :
  running d = true -> (forall w, In w ws -> w_is_closed w = false) ->
  run_loop ws d = fold_left (fun st w => fst (run_iteration w st)) ws d /\
  running (run_loop ws d) = true /\
  (forall w' d', snd (run_iteration w' d') = false -> w_is_closed w' = true).
Proof.
  intros Hrun Hopen.
  cut (run_loop ws d = fold_left (fun st w => fst (run_iteration w st)) ws d /\
       running (run_loop ws d) = true).
  { intros [H1 H2]. split; [exact H1 | split; [exact H2 | exact run_iteration_break]]. }
  revert d Hrun Hopen. induction ws as [| w ws IH]; intros d Hrun Hopen; simpl.
  - auto.
  - rewrite Hrun.
    pose proof (run_iteration_running w d) as Hr.
    pose proof (run_iteration_break w d) as Hb.
    destruct (run_iteration w d) as [d' [|]]; simpl in *.
    + apply IH; [congruence | intros w' Hin; apply Hopen; now right].
    + rewrite (Hopen w (or_introl eq_refl)) in Hb. discriminate (Hb eq_refl).
Qed.

Lemma worker_survives_exceptions_witness :
  running g711_then_h264 = true /\
  running (run_loop [good_world 5000; good_world 5001] g711_then_h264) = true.
Proof.
  split; [reflexivity |].
  destruct (worker_survives_exceptions [good_world 5000; good_world 5001] g711_then_h264)
    as (_ & H & _).
  - reflexivity.
  - intros w [<- | [<- | []]]; reflexivity.
  - exact H.
Defined.

(** ** Shutdown *)






(** A worker that enters [run] only after the stop sets the flag again: each
    of its passes raises AttributeError, and it goes on for as long as the
    event loop is open. *)
Example run_after_stop_keeps_looping :
  running (run [good_world 1; good_world 2] (fst (decoder_stop true g711_then_h264)))
    = true /\
  log (run [good_world 1; good_world 2] (fst (decoder_stop true g711_then_h264)))
    = [ErrorFrameDataHandle AttributeError; ErrorFrameDataHandle AttributeError].
Proof. split; reflexivity. Qed.

(** X13: shutdown is final and not idempotent: after [stop] on a decoder
    whose buffer was live, a second [stop] raises AttributeError (before the
    join), and so does every [push_video_frame] and [push_audio_frame]; none
    of these calls stores a record. *)
Theorem calls_after_stop_raise (started again : bool) (d : MIoTMediaDecoder)
    (fd : MIoTCameraFrameData) :
  cond (queue d) = true ->
  snd (decoder_stop again (fst (decoder_stop started d))) = Raised AttributeError /\
  push_video_frame fd (fst (decoder_stop started d))
    = (fst (decoder_stop started d), Raised AttributeError) /\
  push_audio_frame fd (fst (decoder_stop started d))
    = (fst (decoder_stop started d), Raised AttributeError) /\
  video_buffer (queue (fst (decoder_stop again (fst (decoder_stop started d))))) = [] /\
  audio_buffer (queue (fst (decoder_stop again (fst (decoder_stop started d))))) = [].
Proof.
  intros Hc.
  destruct d as [run iv hw hwa acb q vd ad rs last sch lg]. simpl in Hc.
  unfold decoder_stop, push_video_frame, push_audio_frame, put_video, put_audio,
    bind, modify, ret, raise, stop.
  simpl. rewrite Hc. simpl.
  destruct started; simpl; repeat split.
Qed.

Lemma calls_after_stop_raise_witness :
  cond (queue g711_then_h264) = true /\
  snd (decoder_stop true (fst (decoder_stop true g711_then_h264)))
    = Raised AttributeError.
Proof.
  split; [reflexivity |].
  apply (calls_after_stop_raise true true g711_then_h264 (i_frame 1)). reflexivity.
Defined.

(** ** From push to handler *)

(** The handlers neither read nor write the queue. *)
Lemma on_video_callback_queue (w : world) (fd : MIoTCameraFrameData)
    (q : MIoTMediaRingBuffer) (d : MIoTMediaDecoder) :
  _on_video_callback w fd (set_queue q d)
  = (set_queue q (fst (_on_video_callback w fd d)), snd (_on_video_callback w fd d)).
Proof.
  destruct d as [run iv hw hwa acb q0 vd ad rs last sch lg].
  run_py. unfold set_queue. simpl. split_matches; reflexivity.
Qed.

Lemma on_audio_callback_queue (w : world) (fd : MIoTCameraFrameData)
    (q : MIoTMediaRingBuffer) (d : MIoTMediaDecoder) :
  _on_audio_callback w fd (set_queue q d)
  = (set_queue q (fst (_on_audio_callback w fd d)), snd (_on_audio_callback w fd d)).
Proof.
  destruct d as [run iv hw hwa acb q0 vd ad rs last sch lg].
  run_py. unfold set_queue. simpl. split_matches; reflexivity.
Qed.

(** X14: a record pushed while the video lane of a live buffer (capacity at
    least 1) is empty is the one the next pass of the run loop takes: the
    push returns normally, and the pass leaves the decoder as the video
    handler leaves it on that record, with the video lane empty again. *)
Theorem pushed_video_handled_next_pass (w : world) (fd : MIoTCameraFrameData)
    (d : MIoTMediaDecoder) :
  cond (queue d) = true -> 0 < maxlen (queue d) -> video_buffer (queue d) = [] ->
  snd (push_video_frame fd d) = Returned tt /\
  scheduled (fst (run_iteration w (fst (push_video_frame fd d))))
    = scheduled (fst (_on_video_callback w fd d)) /\
  last_jpeg_ts (fst (run_iteration w (fst (push_video_frame fd d))))
    = last_jpeg_ts (fst (_on_video_callback w fd d)) /\
  video_decoder (fst (run_iteration w (fst (push_video_frame fd d))))
    = video_decoder (fst (_on_video_callback w fd d)) /\
  video_buffer (queue (fst (run_iteration w (fst (push_video_frame fd d))))) = [].
Proof.
  intros Hc Hpos Hempty.
  assert (push_video_frame fd d
          = (set_queue (emit (set_video (queue d) [fd]) Notify) d, Returned tt)) as E.
  { unfold push_video_frame.
    rewrite put_video_with_room by (auto; rewrite Hempty; simpl; lia).
    now rewrite Hempty. }
  rewrite E. simpl.
  unfold run_iteration.
  rewrite (step_video_front _ (_on_video_callback w) (_on_audio_callback w)
             default_timeout_ms _ _ fd []); [| exact Hc | reflexivity].
  rewrite on_video_callback_queue. simpl.
  destruct (snd (_on_video_callback w fd d)); simpl; repeat split.
Qed.

Lemma pushed_video_handled_next_pass_witness :
  cond (queue (new_decoder 1000 false false)) = true /\
  scheduled (fst (run_iteration (good_world 5000)
                    (fst (push_video_frame (i_frame 7) (new_decoder 1000 false false)))))
    = [VideoTask [Byte.xff] 7 0].
Proof.
  split; [reflexivity |].
  destruct (pushed_video_handled_next_pass (good_world 5000) (i_frame 7)
              (new_decoder 1000 false false)) as (_ & H & _).
  - reflexivity.
  - vm_compute. lia.
  - reflexivity.
  - rewrite H. reflexivity.
Defined.

(** ** Binding the video decoder *)

(** X15: on an unbound decoder, a record with codec H264 or H265 binds the
    decoder of that codec exactly when [create] succeeds on the path taken
    (the hardware path retries once).  When it does not succeed the handler
    raises, the decoder stays unbound for the next record, nothing is
    scheduled and [last_jpeg_ts] is untouched. *)
Theorem video_decoder_binding (w : world) (fd : MIoTCameraFrameData)
    (d : MIoTMediaDecoder) (name : av_codec) :
  video_decoder d = None -> video_codec_name (codec_id fd) = Some name ->
  video_decoder (fst (_on_video_callback w fd d))
    = (if create_succeeds w d then Some name else None) /\
  (create_succeeds w d = false ->
   snd (_on_video_callback w fd d) = Raised AVError /\
   scheduled (fst (_on_video_callback w fd d)) = scheduled d /\
   last_jpeg_ts (fst (_on_video_callback w fd d)) = last_jpeg_ts d).
Proof.
  intros Hvd Hname.
  destruct d as [run iv hw hwa acb q vd ad rs last sch lg]. simpl in Hvd. subst vd.
  unfold create_succeeds. run_py.
  destruct (codec_id fd); simpl in Hname; try discriminate;
    injection Hname as <-; simpl;
    destruct (hw && hwa); simpl;
    destruct (w_hw_create w); simpl;
    destruct (w_create w); simpl;
    (split; [| intros Hf; try discriminate Hf; repeat split]);
    split_matches; reflexivity.
Qed.

Lemma video_decoder_binding_witness :
  video_decoder (new_decoder 1000 true true) = None /\
  video_decoder
    (fst (_on_video_callback
            (mkWorld false true (Some []) 5 (fun _ => None) None (fun _ => None) true false)
            (i_frame 1) (new_decoder 1000 true true)))
  = Some hevc.
Proof.
  split; [reflexivity |].
  destruct (video_decoder_binding
              (mkWorld false true (Some []) 5 (fun _ => None) None (fun _ => None) true false)
              (i_frame 1) (new_decoder 1000 true true) hevc) as (H & _).
  - reflexivity.
  - reflexivity.
  - rewrite H. reflexivity.
Defined.

(** * Construction and hardware probing *)

Lemma detect_flag_and_type (p : hw_probe) :
  fst (_detect_hw_acceleration p) = true <-> snd (_detect_hw_acceleration p) = Some vaapi.
Proof.
  unfold _detect_hw_acceleration.
  destruct (p_ffmpeg p) as [| | rc lists]; simpl;
    try destruct (rc =? 0)%Z; try destruct lists;
    destruct (p_renderD128 p || p_card0 p); simpl; split; congruence.
Qed.

(** X16: the constructor fails in exactly two ways, checked in this order:
    with RuntimeError when no loop is given and none is running, and with
    MIoTMediaDecoderError when audio is enabled without an audio callback;
    the hardware probe plays no part in either.  Every decoder it returns is
    stopped and unbound, has an empty buffer of the default capacity, a zero
    [last_jpeg_ts] and nothing scheduled, has the audio callback exactly
    when audio is enabled, and counts hardware acceleration as available
    only if it was enabled and the probe found VAAPI. *)
Theorem construction_outcomes (interval : Z) (audio_callback_given hw audio : bool)
    (main_loop_given loop_running : bool) (p : hw_probe) :
  (MIoTMediaDecoder_init interval audio_callback_given hw audio
     main_loop_given loop_running p = NoRunningLoop
   <-> main_loop_given = false /\ loop_running = false) /\
  (MIoTMediaDecoder_init interval audio_callback_given hw audio
     main_loop_given loop_running p = MIoTMediaDecoderError
   <-> (main_loop_given = true \/ loop_running = true) /\
       audio = true /\ audio_callback_given = false) /\
  (forall d t,
     MIoTMediaDecoder_init interval audio_callback_given hw audio
       main_loop_given loop_running p = Constructed d t ->
     running d = false /\ video_decoder d = None /\ audio_decoder d = None /\
     queue d = init default_maxlen /\ last_jpeg_ts d = 0%Z /\ scheduled d = [] /\
     frame_interval d = interval /\
     audio_callback d = audio /\
     (audio = true -> audio_callback_given = true) /\
     (hw_accel_available d = true <-> hw = true /\ t = Some vaapi) /\
     (hw = false -> t = None)).
Proof.
  pose proof (detect_flag_and_type p) as [Hd1 Hd2].
  unfold MIoTMediaDecoder_init.
  split; [| split].
  - destruct main_loop_given, loop_running, audio, audio_callback_given; simpl;
      (split; [intros H; try discriminate H; auto
              | intros [H1 H2]; try discriminate H1; try discriminate H2; auto]).
  - destruct main_loop_given, loop_running, audio, audio_callback_given; simpl;
      (split; [intros H; try discriminate H; auto
              | intros (Hl & H1 & H2); try discriminate H1; try discriminate H2;
                try (destruct Hl as [Hl | Hl]; discriminate Hl); auto]).
  - intros d t.
    destruct main_loop_given, loop_running, audio, audio_callback_given, hw; simpl;
      intros H; try discriminate H; injection H as <- <-; simpl;
      (repeat split; auto; try discriminate;
       try (intros [H1 H2]; auto; discriminate H1)).
Qed.

(** X17: what the probe reports.  The flag is set exactly when the
    acceleration type is set to VAAPI.  An [ffmpeg] that ends with return
    code 0 and lists vaapi settles it; a missing [ffmpeg], a non-zero return
    code or a list without vaapi leave the answer to the two device nodes;
    and when running [ffmpeg] raises anything else, the answer is no, device
    nodes or not. *)
Theorem detect_hw_acceleration_cases (p : hw_probe) :
  (fst (_detect_hw_acceleration p) = true
   <-> snd (_detect_hw_acceleration p) = Some vaapi) /\
  (p_ffmpeg p = FfmpegExited 0 true -> fst (_detect_hw_acceleration p) = true) /\
  (p_ffmpeg p = FfmpegRaised -> fst (_detect_hw_acceleration p) = false) /\
  (p_ffmpeg p <> FfmpegRaised -> p_ffmpeg p <> FfmpegExited 0 true ->
   fst (_detect_hw_acceleration p) = p_renderD128 p || p_card0 p).
Proof.
  split; [apply detect_flag_and_type |].
  unfold _detect_hw_acceleration.
  repeat split.
  - intros ->. reflexivity.
  - intros ->. reflexivity.
  - intros Hr He.
    destruct (p_ffmpeg p) as [| | rc lists]; simpl.
    + now destruct (p_renderD128 p || p_card0 p).
    + congruence.
    + destruct (Z.eqb_spec rc 0) as [-> | Hrc].
      * destruct lists; [congruence |].
        now destruct (p_renderD128 p || p_card0 p).
      * now destruct (p_renderD128 p || p_card0 p).
Qed.

(** * Library paths *)

Lemma starts_with_app (needle rest : str) : starts_with needle (needle ++ rest) = true.
Proof.
  induction needle as [| c needle IH]; simpl; [reflexivity |].
  now rewrite Ascii.eqb_refl, IH.
Qed.

Lemma str_in_unfold (needle hay : str) :
  str_in needle hay
  = starts_with needle hay ||
    match hay with [] => false | _ :: hay' => str_in needle hay' end.
Proof. destruct hay; reflexivity. Qed.

Lemma str_in_prefix (needle rest : str) : str_in needle (needle ++ rest) = true.
Proof. rewrite str_in_unfold, starts_with_app. reflexivity. Qed.

Lemma str_in_app_r (needle front hay : str) :
  str_in needle hay = true -> str_in needle (front ++ hay) = true.
Proof.
  intros H. induction front as [| c front IH]; simpl; [exact H |].
  rewrite IH. apply orb_true_r.
Qed.

Lemma add_library_path_present (lib : str) (env : environ) :
  str_in lib (get_or_empty (LD_LIBRARY_PATH env)) = true ->
  add_library_path lib env = env.
Proof. intros H. unfold add_library_path. now rewrite H. Qed.

Lemma add_library_path_adds (lib : str) (env : environ) :
  str_in lib (get_or_empty (LD_LIBRARY_PATH (add_library_path lib env))) = true.
Proof.
  unfold add_library_path.
  destruct (str_in lib (get_or_empty (LD_LIBRARY_PATH env))) eqn:H; simpl.
  - exact H.
  - apply str_in_prefix.
Qed.

Lemma add_library_path_keeps (lib other : str) (env : environ) :
  str_in other (get_or_empty (LD_LIBRARY_PATH env)) = true ->
  str_in other (get_or_empty (LD_LIBRARY_PATH (add_library_path lib env))) = true.
Proof.
  intros H. unfold add_library_path.
  destruct (str_in lib (get_or_empty (LD_LIBRARY_PATH env))); simpl; [exact H |].
  apply str_in_app_r. change (str_in other ([":"%char] ++ get_or_empty (LD_LIBRARY_PATH env)) = true).
  now apply str_in_app_r.
Qed.

Lemma add_library_path_suffix (lib : str) (env : environ) :
  LIBVA_DRIVERS_PATH (add_library_path lib env) = LIBVA_DRIVERS_PATH env /\
  exists front,
    get_or_empty (LD_LIBRARY_PATH (add_library_path lib env))
    = front ++ get_or_empty (LD_LIBRARY_PATH env).
Proof.
  unfold add_library_path.
  destruct (str_in lib (get_or_empty (LD_LIBRARY_PATH env))); simpl.
  - split; [reflexivity | now exists []].
  - split; [reflexivity |]. exists (lib ++ lit ":"). now rewrite <- app_assoc.
Qed.

(** X18: after the setup, every library directory that exists (under an
    existing third-party directory) occurs in LD_LIBRARY_PATH, the old value
    of LD_LIBRARY_PATH is still its tail, and LIBVA_DRIVERS_PATH names the
    driver directory when that exists next to the VAAPI libraries; without
    a third-party directory the environment is left as it was. *)
Theorem setup_library_paths_result (fs_exists : str -> bool) (third_party_dir : str)
    (env : environ) :
  (fs_exists third_party_dir = false ->
   _setup_library_paths fs_exists third_party_dir env = env) /\
  (fs_exists third_party_dir = true ->
   (fs_exists (ffmpeg_lib_of third_party_dir) = true ->
    str_in (ffmpeg_lib_of third_party_dir)
      (get_or_empty (LD_LIBRARY_PATH (_setup_library_paths fs_exists third_party_dir env)))
    = true) /\
   (fs_exists (vaapi_lib_of third_party_dir) = true ->
    str_in (vaapi_lib_of third_party_dir)
      (get_or_empty (LD_LIBRARY_PATH (_setup_library_paths fs_exists third_party_dir env)))
    = true /\
    (fs_exists (path_join (vaapi_lib_of third_party_dir) "dri") = true ->
     LIBVA_DRIVERS_PATH (_setup_library_paths fs_exists third_party_dir env)
     = Some (path_join (vaapi_lib_of third_party_dir) "dri")))) /\
  (exists front,
     get_or_empty (LD_LIBRARY_PATH (_setup_library_paths fs_exists third_party_dir env))
     = front ++ get_or_empty (LD_LIBRARY_PATH env)).
Proof.
  unfold _setup_library_paths.
  set (ffmpeg := ffmpeg_lib_of third_party_dir).
  set (vaapi_l := vaapi_lib_of third_party_dir).
  set (driver := path_join vaapi_l "dri").
  split; [| split].
  - intros ->. reflexivity.
  - intros ->. simpl. split.
    + intros Hf. rewrite Hf.
      pose proof (add_library_path_adds ffmpeg env) as Hin.
      destruct (fs_exists vaapi_l); [| exact Hin].
      pose proof (add_library_path_keeps vaapi_l ffmpeg _ Hin) as Hin'.
      now destruct (fs_exists driver).
    + intros Hv. rewrite Hv. split.
      * destruct (fs_exists driver); simpl; apply add_library_path_adds.
      * intros Hd. now rewrite Hd.
  - destruct (fs_exists third_party_dir); simpl; [| now exists []].
    assert (exists front,
              get_or_empty (LD_LIBRARY_PATH
                (if fs_exists ffmpeg then add_library_path ffmpeg env else env))
              = front ++ get_or_empty (LD_LIBRARY_PATH env)) as [f1 E1].
    { destruct (fs_exists ffmpeg); [apply add_library_path_suffix | now exists []]. }
    destruct (fs_exists vaapi_l); [| now exists f1].
    destruct (add_library_path_suffix vaapi_l
                (if fs_exists ffmpeg then add_library_path ffmpeg env else env))
      as (_ & f2 & E2).
    exists (f2 ++ f1). rewrite <- app_assoc, <- E1.
    now destruct (fs_exists driver).
Qed.

(** X19: the setup is idempotent: running it a second time on the
    environment it produced, with the same file system, changes nothing (no
    directory is prepended twice). *)
Theorem setup_library_paths_idempotent (fs_exists : str -> bool)
    (third_party_dir : str) (env : environ) :
  _setup_library_paths fs_exists third_party_dir
    (_setup_library_paths fs_exists third_party_dir env)
  = _setup_library_paths fs_exists third_party_dir env.
Proof.
  unfold _setup_library_paths.
  set (ffmpeg := ffmpeg_lib_of third_party_dir).
  set (vaapi_l := vaapi_lib_of third_party_dir).
  set (driver := path_join vaapi_l "dri").
  destruct (fs_exists third_party_dir) eqn:Hdir; simpl; [| reflexivity].
  set (env1 := if fs_exists ffmpeg then add_library_path ffmpeg env else env).
  assert (fs_exists ffmpeg = true ->
          str_in ffmpeg (get_or_empty (LD_LIBRARY_PATH env1)) = true) as Hf1.
  { intros Hf. unfold env1. rewrite Hf. apply add_library_path_adds. }
  destruct (fs_exists vaapi_l) eqn:Hv.
  - set (env2 := add_library_path vaapi_l env1).
    assert (fs_exists ffmpeg = true ->
            str_in ffmpeg (get_or_empty (LD_LIBRARY_PATH env2)) = true) as Hf2.
    { intros Hf. apply add_library_path_keeps. now apply Hf1. }
    pose proof (add_library_path_adds vaapi_l env1) as Hv2. fold env2 in Hv2.
    destruct (fs_exists driver) eqn:Hd.
    + assert ((if fs_exists ffmpeg
               then add_library_path ffmpeg
                      (mkEnviron (LD_LIBRARY_PATH env2) (Some driver))
               else mkEnviron (LD_LIBRARY_PATH env2) (Some driver))
              = mkEnviron (LD_LIBRARY_PATH env2) (Some driver)) as ->.
      { destruct (fs_exists ffmpeg); [| reflexivity].
        apply add_library_path_present. simpl. now apply Hf2. }
      now rewrite add_library_path_present by exact Hv2.
    + assert ((if fs_exists ffmpeg then add_library_path ffmpeg env2 else env2) = env2)
        as ->.
      { destruct (fs_exists ffmpeg); [| reflexivity].
        apply add_library_path_present. now apply Hf2. }
      now rewrite add_library_path_present by exact Hv2.
  - destruct (fs_exists ffmpeg) eqn:Hf; [| reflexivity].
    apply add_library_path_present. now apply Hf1.
Qed.

(** The setup on an empty environment with every directory present. *)
Example setup_library_paths_sample :
  _setup_library_paths (fun _ => true) (lit "/tp") (mkEnviron None None)
  = mkEnviron
      (Some (lit "/tp/vaapi/linux/x86_64/lib:/tp/ffmpeg/linux/x86_64/lib:"))
      (Some (lit "/tp/vaapi/linux/x86_64/lib/dri")).
Proof. reflexivity. Qed.

(** The test is for a substring, not for a path entry: a directory whose
    name is contained in a longer entry is taken to be present already. *)
Example add_library_path_substring :
  add_library_path (lit "/tp/lib") (mkEnviron (Some (lit "/tp/lib64")) None)
  = mkEnviron (Some (lit "/tp/lib64")) None.
Proof. reflexivity. Qed.
